(** * ckanext-s3-resources: the [migrate_s3] paster command

    A shallow embedding of [MigrateToS3.command]
    (ckanext/datagovsg_s3_resources/commands.py) and the properties of its
    traversal, classification and error containment.

    The command is Python 2 code that threads nine accumulator variables, a
    logger and three external CKAN actions through two nested loops with two
    [try]/[except] boundaries.  It is modelled in a state-and-exception monad
    over a record that holds the accumulators, the log, the state of the
    external services and the trace of the external calls.

    What the model takes from outside: the dicts returned by CKAN are
    records whose fields may be absent; the CKAN actions are functions of an
    abstract state of the services, which they may change, and they return
    or raise; the exceptions are subclasses of [Exception] (the only ones
    the two [except] clauses catch); [str.lower] lowers the ASCII letters
    and [str.split] splits on the six ASCII whitespace characters; a log
    record keeps the level, the format string (as a constructor) and its
    arguments.  [_load_config] and the set-up of the logger are not
    modelled. *)

From stdpp Require Import base gmap sets list strings.
From Stdlib Require Import ZArith Ascii String.

Local Open Scope string_scope.
Local Open Scope list_scope.

(** ** Python values, dicts and exceptions *)

(** A field of a CKAN dict as the command reads it: [None] or a string. *)
Inductive value := VNone | VStr (s : string).

Global Instance value_eq_dec : EqDecision value.
Proof. solve_decision. Defined.

Definition value_to_option (v : value) : option string :=
  match v with VNone => None | VStr s => Some s end.

Definition value_of_option (o : option string) : value :=
  match o with None => VNone | Some s => VStr s end.

Global Instance value_countable : Countable value.
Proof.
  apply (inj_countable' value_to_option value_of_option).
  intros []; reflexivity.
Defined.

(** A resource dict.  Each field is the entry of the dict under that key;
    [None] means that the key is absent, so that [resource['k']] raises
    [KeyError] and [resource.get('k', d)] gives [d]. *)
Record resource := mk_resource {
  r_name : option value;
  r_url_type : option value;
  r_id : option value;
  r_format : option value }.

Global Instance resource_eq_dec : EqDecision resource.
Proof. solve_decision. Defined.

(** A package dict, as returned by [package_show]. *)
Record pkg := mk_pkg {
  p_id : option value;
  p_num_resources : option Z;
  p_resources : option (list resource) }.

Global Instance pkg_eq_dec : EqDecision pkg.
Proof. solve_decision. Defined.

(** The exceptions (all subclasses of [Exception]) that the command tells
    apart, or raises itself. *)
Inductive exn :=
| ValidationError (detail : string)
| KeyError (key : string)
| AttributeError (detail : string)
| TypeError (detail : string)
| OtherException (detail : string).

Global Instance exn_eq_dec : EqDecision exn.
Proof. solve_decision. Defined.

(** ** Strings: [str.lower] and [str.split] *)

Definition lower_ascii (c : ascii) : ascii :=
  let n := nat_of_ascii c in
  if (65 <=? n)%nat && (n <=? 90)%nat then ascii_of_nat (n + 32) else c.

Fixpoint lower (s : string) : string :=
  match s with
  | EmptyString => EmptyString
  | String c s' => String (lower_ascii c) (lower s')
  end.

(** The whitespace of [str.split()]: space, \t, \n, \v, \f, \r. *)
Definition is_space (c : ascii) : bool :=
  let n := nat_of_ascii c in
  (n =? 32)%nat || ((9 <=? n)%nat && (n <=? 13)%nat).

(** [split_go tok s]: [tok] is the token being read. *)
Fixpoint split_go (tok : string) (s : string) : list string :=
  match s with
  | EmptyString => match tok with EmptyString => [] | _ => [tok] end
  | String c s' =>
      if is_space c
      then match tok with
           | EmptyString => split_go EmptyString s'
           | _ => tok :: split_go EmptyString s'
           end
      else split_go (String.append tok (String c EmptyString)) s'
  end.

Definition split (s : string) : list string := split_go EmptyString s.

(** A token: a non-empty run of characters without whitespace. *)
Fixpoint has_space (s : string) : bool :=
  match s with
  | EmptyString => false
  | String c s' => is_space c || has_space s'
  end.

Definition is_token (t : string) : Prop :=
  t <> EmptyString /\ has_space t = false.

(** Lines 60-61: [config.get(key, '').split()], then [t.lower()] on each. *)
Definition blacklist_of_config (config : option string) : list string :=
  let blacklist := split (default EmptyString config) in
  map lower blacklist.

(** Lines 33-37. *)
Definition skip_existing_s3_upload (args : list string) : bool :=
  match args with
  | a :: _ => if bool_decide (a = "force_s3") then false else true
  | [] => true
  end.

(** ** Log records, external calls, accumulators *)

Inductive level := INFO | ERROR.

(** A blacklisted resource as appended at line 110: the resource id under
    ['resource_id'] and the extension under ['id']. *)
Record blacklisted_entry := mk_blacklisted {
  bl_resource_id : value;
  bl_id : string }.

(** The nine accumulators of lines 51-71. *)
Record outcome := mk_outcome {
  key_errors : nat;
  validation_errors : nat;
  other_errors_list : list (value * exn);
  pkg_crashes : gset value;
  pkg_crashes_w_error : list (string * exn);
  blacklisted : list blacklisted_entry;
  not_blacklisted : nat;
  already_on_s3 : list value;
  extensions_seen : gset string }.

(** One constructor per format string of the command's [logger] calls; the
    arguments are the values formatted into it. *)
Inductive message :=
| MsgStarting (dataset_name : string)
| MsgAlreadyOnS3 (name : value)
| MsgAttempting (name : value)
| MsgSuccess (name : value)
| MsgValidationError (name : value)
| MsgKeyError (name : value)
| MsgOtherError (name : value) (error : exn)
| MsgBlacklisted (name : value)
| MsgPackageError (dataset_name : string) (error : exn)
| MsgNumKeyErrors (n : nat)
| MsgNumValidationErrors (n : nat)
| MsgNumOtherErrors (n : nat)
| MsgNumPackageCrashes (n : nat)
| MsgPackageIds (ids : gset value)
| MsgOtherErrors (l : list (value * exn))
| MsgAlreadyOnS3List (l : list value)
| MsgNotBlacklisted (n : nat)
| MsgBlacklistedList (l : list blacklisted_entry)
| MsgExtensionsSeen (s : gset string)
| MsgPackageCrashesWithError (l : list (string * exn)).

Definition log_record : Type := level * message.

(** The calls to the external services, with what they returned.  [Visit] is
    a ghost event: it marks that the body of the inner loop ran to its end
    for a resource. *)
Inductive event :=
| Fetch (dataset_name : string) (result : exn + pkg)
| Migrate (r : resource) (result : option exn)
| Package (p : pkg) (result : option exn)
| Visit (p : pkg) (r : resource).

Definition with_key_errors (v : nat) (o : outcome) : outcome :=
  mk_outcome v (validation_errors o) (other_errors_list o) (pkg_crashes o)
    (pkg_crashes_w_error o) (blacklisted o) (not_blacklisted o)
    (already_on_s3 o) (extensions_seen o).
Definition with_validation_errors (v : nat) (o : outcome) : outcome :=
  mk_outcome (key_errors o) v (other_errors_list o) (pkg_crashes o)
    (pkg_crashes_w_error o) (blacklisted o) (not_blacklisted o)
    (already_on_s3 o) (extensions_seen o).
Definition with_other_errors_list (v : list (value * exn))
    (o : outcome) : outcome :=
  mk_outcome (key_errors o) (validation_errors o) v (pkg_crashes o)
    (pkg_crashes_w_error o) (blacklisted o) (not_blacklisted o)
    (already_on_s3 o) (extensions_seen o).
Definition with_pkg_crashes (v : gset value) (o : outcome) : outcome :=
  mk_outcome (key_errors o) (validation_errors o) (other_errors_list o) v
    (pkg_crashes_w_error o) (blacklisted o) (not_blacklisted o)
    (already_on_s3 o) (extensions_seen o).
Definition with_pkg_crashes_w_error (v : list (string * exn))
    (o : outcome) : outcome :=
  mk_outcome (key_errors o) (validation_errors o) (other_errors_list o)
    (pkg_crashes o) v (blacklisted o) (not_blacklisted o) (already_on_s3 o)
    (extensions_seen o).
Definition with_blacklisted (v : list blacklisted_entry)
    (o : outcome) : outcome :=
  mk_outcome (key_errors o) (validation_errors o) (other_errors_list o)
    (pkg_crashes o) (pkg_crashes_w_error o) v (not_blacklisted o)
    (already_on_s3 o) (extensions_seen o).
Definition with_not_blacklisted (v : nat) (o : outcome) : outcome :=
  mk_outcome (key_errors o) (validation_errors o) (other_errors_list o)
    (pkg_crashes o) (pkg_crashes_w_error o) (blacklisted o) v
    (already_on_s3 o) (extensions_seen o).
Definition with_already_on_s3 (v : list value) (o : outcome) : outcome :=
  mk_outcome (key_errors o) (validation_errors o) (other_errors_list o)
    (pkg_crashes o) (pkg_crashes_w_error o) (blacklisted o)
    (not_blacklisted o) v (extensions_seen o).
Definition with_extensions_seen (v : gset string) (o : outcome) : outcome :=
  mk_outcome (key_errors o) (validation_errors o) (other_errors_list o)
    (pkg_crashes o) (pkg_crashes_w_error o) (blacklisted o)
    (not_blacklisted o) (already_on_s3 o) v.

(** Lines 51-55 and 68-71. *)
Definition empty_outcome : outcome :=
  mk_outcome 0 0 [] ∅ [] [] 0 [] ∅.

(** [resource.get('name', '')] *)
Definition resource_name (r : resource) : value :=
  default (VStr EmptyString) (r_name r).

(** ** The external services *)

(** The state of the external services (the CKAN catalogue and the object
    store) and the actions the command calls on them.  Each action may
    change that state and may raise. *)
Class Services (World : Type) := {
  get_site_user : World -> World * option exn;
  package_list : World -> World * (exn + list string);
  package_show : World -> string -> World * (exn + pkg);
  resource_update : World -> resource -> World * option exn;
  upload_package_zipfile_to_s3 : World -> pkg -> World * option exn }.

(** ** The state of a run *)

Section State.

Context {World : Type}.

Record St := mk_St {
  world : World;
  out : outcome;
  log : list log_record;
  trace : list event }.

Definition with_world (w : World) (st : St) : St :=
  mk_St w (out st) (log st) (trace st).
Definition with_out (o : outcome) (st : St) : St :=
  mk_St (world st) o (log st) (trace st).
Definition with_log (l : list log_record) (st : St) : St :=
  mk_St (world st) (out st) l (trace st).
Definition with_trace (t : list event) (st : St) : St :=
  mk_St (world st) (out st) (log st) t.

Definition init (w : World) : St := mk_St w empty_outcome [] [].

(** *** The monad: state, and a result that is a value or a raised exception *)

Definition M (A : Type) : Type := St -> St * (exn + A).

Definition ret {A} (a : A) : M A := fun st => (st, inr a).

Definition raise {A} (e : exn) : M A := fun st => (st, inl e).

Definition bind {A B} (c : M A) (k : A -> M B) : M B :=
  fun st =>
    match c st with
    | (st', inr a) => k a st'
    | (st', inl e) => (st', inl e)
    end.

(** [try: body except Exception as error: handler]; what the handler raises
    is not caught here. *)
Definition try_except {A} (body : M A) (handler : exn -> M A) : M A :=
  fun st =>
    match body st with
    | (st', inr a) => (st', inr a)
    | (st', inl e) => handler e st'
    end.

Definition modify (f : outcome -> outcome) : M unit :=
  fun st => (with_out (f (out st)) st, inr tt).

Definition emit (ev : event) : M unit :=
  fun st => (with_trace (trace st ++ [ev]) st, inr tt).

Definition logger (lv : level) (m : message) : M unit :=
  fun st => (with_log (log st ++ [(lv, m)]) st, inr tt).

Definition gets {A} (f : outcome -> A) : M A :=
  fun st => (st, inr (f (out st))).

End State.

Notation "x <- c1 ;; c2" := (bind c1 (fun x => c2))
  (at level 100, c1 at next level, right associativity).
Notation "c1 ;; c2" := (bind c1 (fun _ => c2))
  (at level 100, right associativity).

(** ** The command *)

Section Command.

Context {World : Type} {services : Services World}.

Local Abbreviation M := (@M World).
Implicit Types (st : @St World).

(** [for x in l: body x] *)
Fixpoint for_each {A} (body : A -> M unit) (l : list A) : M unit :=
  match l with
  | [] => ret tt
  | x :: l' => body x ;; for_each body l'
  end.

(** [d[key]] *)
Definition getitem {A} (key : string) (entry : option A) : M A :=
  match entry with
  | Some v => ret v
  | None => raise (KeyError key)
  end.

(** [v.lower()] *)
Definition str_lower (v : value) : M string :=
  match v with
  | VStr s => ret (lower s)
  | VNone => raise (AttributeError "'NoneType' object has no attribute 'lower'")
  end.

(** [for resource in v]: iterating [None] raises. *)
Definition iter {A} (v : option (list A)) : M (list A) :=
  match v with
  | Some l => ret l
  | None => raise (TypeError "'NoneType' object is not iterable")
  end.

(** [pkg.get('num_resources') > 0]; in Python 2, [None > 0] is [False]. *)
Definition gt0 (v : option Z) : bool :=
  match v with
  | Some n => (0 <? n)%Z
  | None => false
  end.

(** *** The external actions, as the command calls them *)

Definition call_get_site_user : M unit :=
  fun st =>
    match get_site_user (world st) with
    | (w, None) => (with_world w st, inr tt)
    | (w, Some e) => (with_world w st, inl e)
    end.

Definition call_package_list : M (list string) :=
  fun st =>
    let '(w, res) := package_list (world st) in (with_world w st, res).

Definition call_package_show (dataset_name : string) : M pkg :=
  fun st =>
    let '(w, res) := package_show (world st) dataset_name in
    (with_trace (trace st ++ [Fetch dataset_name res]) (with_world w st), res).

(** Lines 130-136. *)
Definition change_to_s3 (r : resource) : M unit :=
  fun st =>
    let '(w, res) := resource_update (world st) r in
    let st' := with_trace (trace st ++ [Migrate r res]) (with_world w st) in
    match res with
    | None => (st', inr tt)
    | Some e => (st', inl e)
    end.

Definition call_upload_package_zipfile_to_s3 (p : pkg) : M unit :=
  fun st =>
    let '(w, res) := upload_package_zipfile_to_s3 (world st) p in
    let st' := with_trace (trace st ++ [Package p res]) (with_world w st) in
    match res with
    | None => (st', inr tt)
    | Some e => (st', inl e)
    end.

(** *** The command *)

(** Lines 96-107: the three handlers of the inner [try]. *)
Definition migration_handler (p : pkg) (r : resource) (error : exn) : M unit :=
  match error with
  | ValidationError _ =>
      logger ERROR (MsgValidationError (resource_name r)) ;;
      modify (fun o => with_validation_errors (validation_errors o + 1) o) ;;
      i <- getitem "id" (p_id p) ;;
      modify (fun o => with_pkg_crashes (pkg_crashes o ∪ {[i]}) o)
  | KeyError _ =>
      logger ERROR (MsgKeyError (resource_name r)) ;;
      modify (fun o => with_key_errors (key_errors o + 1) o) ;;
      i <- getitem "id" (p_id p) ;;
      modify (fun o => with_pkg_crashes (pkg_crashes o ∪ {[i]}) o)
  | _ =>
      logger ERROR (MsgOtherError (resource_name r) error) ;;
      i <- getitem "id" (p_id p) ;;
      modify (fun o => with_other_errors_list (other_errors_list o ++ [(i, error)]) o) ;;
      i <- getitem "id" (p_id p) ;;
      modify (fun o => with_pkg_crashes (pkg_crashes o ∪ {[i]}) o)
  end.

(** Lines 83-110: the body of the inner loop. *)
Definition process_resource (skip : bool) (blacklist : list string)
    (p : pkg) (r : resource) : M unit :=
  on_s3 <- (if skip
            then (url_type <- getitem "url_type" (r_url_type r) ;;
                  ret (bool_decide (url_type = VStr "s3")))
            else ret false) ;;
  if on_s3 : bool then
    logger INFO (MsgAlreadyOnS3 (resource_name r)) ;;
    i <- getitem "id" (r_id r) ;;
    modify (fun o => with_already_on_s3 (already_on_s3 o ++ [i]) o)
  else
    format <- getitem "format" (r_format r) ;;
    extension <- str_lower format ;;
    modify (fun o => with_extensions_seen (extensions_seen o ∪ {[extension]}) o) ;;
    if bool_decide (extension ∉ blacklist) then
      modify (fun o => with_not_blacklisted (not_blacklisted o + 1) o) ;;
      try_except
        (logger INFO (MsgAttempting (resource_name r)) ;;
         change_to_s3 r ;;
         logger INFO (MsgSuccess (resource_name r)))
        (migration_handler p r)
    else
      logger INFO (MsgBlacklisted (resource_name r)) ;;
      i <- getitem "id" (r_id r) ;;
      modify (fun o => with_blacklisted (blacklisted o ++ [mk_blacklisted i extension]) o).

(** One turn of the inner loop; the ghost event marks that the body ran to
    its end. *)
Definition iteration (skip : bool) (blacklist : list string)
    (p : pkg) (r : resource) : M unit :=
  process_resource skip blacklist p r ;;
  emit (Visit p r).

(** Lines 80-110: the guard and the inner loop. *)
Definition process_resources (skip : bool) (blacklist : list string)
    (p : pkg) : M unit :=
  if gt0 (p_num_resources p) then
    resources <- iter (p_resources p) ;;
    for_each (iteration skip blacklist p) resources
  else ret tt.

(** Lines 79-112: the body of the outer [try]. *)
Definition dataset_body (skip : bool) (blacklist : list string)
    (dataset_name : string) : M unit :=
  p <- call_package_show dataset_name ;;
  process_resources skip blacklist p ;;
  call_upload_package_zipfile_to_s3 p.

(** Lines 113-115. *)
Definition dataset_handler (dataset_name : string) (error : exn) : M unit :=
  logger ERROR (MsgPackageError dataset_name error) ;;
  modify (fun o => with_pkg_crashes_w_error
                     (pkg_crashes_w_error o ++ [(dataset_name, error)]) o).

(** Lines 77-115: the body of the outer loop. *)
Definition process_dataset (skip : bool) (blacklist : list string)
    (dataset_name : string) : M unit :=
  logger INFO (MsgStarting dataset_name) ;;
  try_except (dataset_body skip blacklist dataset_name)
             (dataset_handler dataset_name).

(** Lines 118-128: the eleven lines of the report. *)
Definition summary_lines (o : outcome) : list log_record :=
  [ (INFO, MsgNumKeyErrors (key_errors o));
    (INFO, MsgNumValidationErrors (validation_errors o));
    (INFO, MsgNumOtherErrors (List.length (other_errors_list o)));
    (INFO, MsgNumPackageCrashes (size (pkg_crashes o)));
    (INFO, MsgPackageIds (pkg_crashes o));
    (INFO, MsgOtherErrors (other_errors_list o));
    (INFO, MsgAlreadyOnS3List (already_on_s3 o));
    (INFO, MsgNotBlacklisted (not_blacklisted o));
    (INFO, MsgBlacklistedList (blacklisted o));
    (INFO, MsgExtensionsSeen (extensions_seen o));
    (INFO, MsgPackageCrashesWithError (pkg_crashes_w_error o)) ].

Definition summary : M unit :=
  o <- gets (fun o => o) ;;
  for_each (fun lm => logger (fst lm) (snd lm)) (summary_lines o).

(** Lines 76-128. *)
Definition migrate (skip : bool) (blacklist : list string)
    (dataset_names : list string) : M unit :=
  for_each (process_dataset skip blacklist) dataset_names ;;
  summary.

(** Lines 29-128.  [config] is the value of
    [ckan.datagovsg_s3_resources.upload_filetype_blacklist], if set. *)
Definition command (args : list string) (config : option string) : M unit :=
  let skip := skip_existing_s3_upload args in
  call_get_site_user ;;
  dataset_names <- call_package_list ;;
  let blacklist := blacklist_of_config config in
  migrate skip blacklist dataset_names.

End Command.

(** ** What a run shows: counts over the accumulators, the trace and the log *)

Definition count {A} (f : A -> bool) (l : list A) : nat :=
  List.length (List.filter f l).

Definition is_visit (ev : event) : bool :=
  match ev with Visit _ _ => true | _ => false end.

Definition is_migrated (ev : event) : bool :=
  match ev with Migrate _ None => true | _ => false end.

Definition is_package_of (p : pkg) (ev : event) : bool :=
  match ev with Package q _ => bool_decide (q = p) | _ => false end.

Definition is_already_msg (lm : log_record) : bool :=
  match lm with (_, MsgAlreadyOnS3 _) => true | _ => false end.

(** The names of the datasets fetched, in the order of the calls. *)
Definition fetched_names (t : list event) : list string :=
  omap (fun ev => match ev with Fetch n _ => Some n | _ => None end) t.

(** The resources the inner loop finished with, and their extensions. *)
Definition visited_resources (t : list event) : list resource :=
  omap (fun ev => match ev with Visit _ r => Some r | _ => None end) t.

Definition extension_of (r : resource) : option string :=
  match r_format r with
  | Some (VStr s) => Some (lower s)
  | _ => None
  end.

(** The four buckets of a run. *)
Section Buckets.

Context {World : Type}.

Definition skipped (st : @St World) : nat := List.length (already_on_s3 (out st)).
Definition excluded (st : @St World) : nat := List.length (blacklisted (out st)).
Definition migrated (st : @St World) : nat := count is_migrated (trace st).
Definition failed (st : @St World) : nat :=
  validation_errors (out st) + key_errors (out st)
  + List.length (other_errors_list (out st)).
Definition visited (st : @St World) : nat := count is_visit (trace st).

End Buckets.






(** The message the inner handlers log for an exception of [change_to_s3]. *)
Definition migration_error_message (r : resource) (e : exn) : message :=
  match e with
  | ValidationError _ => MsgValidationError (resource_name r)
  | KeyError _ => MsgKeyError (resource_name r)
  | _ => MsgOtherError (resource_name r) e
  end.


(** A resource handed to [change_to_s3] has an extension outside [blacklist]. *)
Definition migrate_allowed (blacklist : list string) (ev : event) : Prop :=
  match ev with
  | Migrate r _ => exists e, extension_of r = Some e /\ e ∉ blacklist
  | _ => True
  end.

(** Every package the catalogue returns carries its 'id'. *)
Definition packages_have_id {World} (services : Services World) : Prop :=
  forall w n w' p, package_show w n = (w', inr p) -> is_Some (p_id p).

(** A property of the state that a computation keeps, whatever it returns. *)
Definition preserves {World A} (I : @St World -> Prop) (c : M A) : Prop :=
  forall st, I st -> I (fst (c st)).

(** A computation that never raises. *)
Definition total {World A} (c : @M World A) : Prop :=
  forall st, exists a, snd (c st) = inr a.

(** ** The classes of a resource, as the inner loop decides them *)

(** The resource is past the check of line 83: the run is forced, or its
    ['url_type'] is there and is not ['s3']. *)
Definition not_skipped (skip : bool) (r : resource) : Prop :=
  skip = false \/ exists u, r_url_type r = Some u /\ u <> VStr "s3".

(** The key whose lookup fails while the resource is classified, if one
    does: ['url_type'] at line 83, ['id'] at lines 85 and 110, ['format'] at
    line 88. *)
Definition classification_key_error (skip : bool) (blacklist : list string)
    (r : resource) : option string :=
  let past_the_skip :=
    match r_format r with
    | None => Some "format"
    | Some VNone => None
    | Some (VStr f) =>
        if bool_decide (lower f ∈ blacklist)
        then match r_id r with None => Some "id" | Some _ => None end
        else None
    end in
  if skip then
    match r_url_type r with
    | None => Some "url_type"
    | Some u =>
        if bool_decide (u = VStr "s3")
        then match r_id r with None => Some "id" | Some _ => None end
        else past_the_skip
    end
  else past_the_skip.


Definition is_package (ev : event) : bool :=
  match ev with Package _ _ => true | _ => false end.

(** ** Invariants of a run *)

Section Invariants.

Context {World : Type}.

Implicit Types (st : @St World).

(** The four buckets add up to the resources visited. *)
Definition balanced st : Prop :=
  skipped st + excluded st + migrated st + failed st = visited st.

(** Nothing was skipped as already on S3. *)
Definition nothing_skipped st : Prop :=
  already_on_s3 (out st) = [] /\ count is_already_msg (log st) = 0.

(** Nothing was excluded. *)
Definition nothing_excluded st : Prop :=
  blacklisted (out st) = [].

(** Only resources with an extension outside [blacklist] were migrated. *)
Definition only_allowed_migrated (blacklist : list string) st : Prop :=
  Forall (migrate_allowed blacklist) (trace st).


(** The extension of every visited resource is in [extensions_seen], save
    for the resources skipped as already on S3. *)
Definition extensions_recorded (skip : bool) st : Prop :=
  forall r, r ∈ visited_resources (trace st) ->
    (skip = true /\ r_url_type r = Some (VStr "s3"))
    \/ exists e, extension_of r = Some e /\ e ∈ extensions_seen (out st).



End Invariants.

(** ** Example catalogues *)

Definition r_csv_on_s3 : resource :=
  mk_resource (Some (VStr "prices")) (Some (VStr "s3")) (Some (VStr "r1"))
              (Some (VStr "CSV")).

Definition r_zip : resource :=
  mk_resource (Some (VStr "archive")) (Some VNone) (Some (VStr "r2"))
              (Some (VStr "Zip")).

Definition r_pdf : resource :=
  mk_resource (Some (VStr "report")) (Some (VStr "upload")) (Some (VStr "r3"))
              (Some (VStr "pdf")).

Definition r_bad : resource :=
  mk_resource (Some (VStr "broken")) (Some VNone) (Some (VStr "r4"))
              (Some (VStr "xls")).

Definition r_no_format : resource :=
  mk_resource (Some (VStr "bare")) (Some VNone) (Some (VStr "r5")) None.

Definition d1 : pkg :=
  mk_pkg (Some (VStr "p1")) (Some 4%Z) (Some [r_csv_on_s3; r_zip; r_bad; r_pdf]).

Definition d_empty : pkg :=
  mk_pkg (Some (VStr "p3")) (Some 0%Z) (Some []).

Definition d_malformed : pkg :=
  mk_pkg (Some (VStr "p4")) (Some 2%Z) (Some [r_no_format; r_pdf]).

Definition d_on_s3 : pkg :=
  mk_pkg (Some (VStr "p5")) (Some 1%Z) (Some [r_csv_on_s3]).

(** A catalogue of four datasets; ["d2"] cannot be fetched, the update of
    resource ["r4"] is rejected, and the store takes one upload per run.
    The state of the services is the number of uploads done. *)
Definition demo : Services nat := {|
  get_site_user w := (w, None);
  package_list w := (w, inr ["d1"; "d2"; "d3"; "d4"]);
  package_show w n :=
    (w, if bool_decide (n = "d1") then inr d1
        else if bool_decide (n = "d3") then inr d_empty
        else if bool_decide (n = "d4") then inr d_malformed
        else inl (OtherException "NotFound"));
  resource_update w r :=
    if bool_decide (r_id r = Some (VStr "r4"))
    then (w, Some (ValidationError "url"))
    else if bool_decide (w = 0) then (S w, None)
         else (w, Some (OtherException "quota"));
  upload_package_zipfile_to_s3 w p := (w, None) |}.

(** A catalogue whose only dataset has one resource, already on S3. *)
Definition on_s3_only : Services unit := {|
  get_site_user w := (w, None);
  package_list w := (w, inr ["d5"]);
  package_show w n := (w, inr d_on_s3);
  resource_update w r := (w, None);
  upload_package_zipfile_to_s3 w p := (w, None) |}.

(** A catalogue whose only dataset has a resource without ['format']. *)
Definition malformed_only : Services unit := {|
  get_site_user w := (w, None);
  package_list w := (w, inr ["d4"]);
  package_show w n := (w, inr d_malformed);
  resource_update w r := (w, None);
  upload_package_zipfile_to_s3 w p := (w, None) |}.

(** ** Further observations of a run *)

(** The calls of [change_to_s3], and those that raised by kind. *)
Definition is_migrate_call (ev : event) : bool :=
  match ev with Migrate _ _ => true | _ => false end.

Definition is_failed_call (ev : event) : bool :=
  match ev with Migrate _ (Some _) => true | _ => false end.

Definition is_validation_failure (ev : event) : bool :=
  match ev with Migrate _ (Some (ValidationError _)) => true | _ => false end.

Definition is_key_failure (ev : event) : bool :=
  match ev with Migrate _ (Some (KeyError _)) => true | _ => false end.

Definition is_other_failure (ev : event) : bool :=
  match ev with
  | Migrate _ (Some (ValidationError _)) | Migrate _ (Some (KeyError _)) => false
  | Migrate _ (Some _) => true
  | _ => false
  end.

(** An event of the inner loop over the resources of [p]. *)
Definition inner_event_of (p : pkg) (ev : event) : Prop :=
  match ev with
  | Migrate r _ | Visit _ r => exists rs, p_resources p = Some rs /\ r ∈ rs
  | _ => False
  end.

(** The check of line 83. *)
Definition is_on_s3 (skip : bool) (r : resource) : bool :=
  skip && bool_decide (r_url_type r = Some (VStr "s3")).

(** What a visited resource leaves in [already_on_s3] and in [blacklisted]. *)
Definition skipped_id (skip : bool) (r : resource) : option value :=
  if is_on_s3 skip r then r_id r else None.

Definition excluded_entry (skip : bool) (blacklist : list string)
    (r : resource) : option blacklisted_entry :=
  if is_on_s3 skip r then None
  else match extension_of r, r_id r with
       | Some e, Some i =>
           if bool_decide (e ∈ blacklist) then Some (mk_blacklisted i e)
           else None
       | _, _ => None
       end.

(** A resource dict that has the three keys the loop reads, with a string
    under ['format']. *)
Definition well_formed (r : resource) : Prop :=
  is_Some (r_url_type r) /\ is_Some (r_id r)
  /\ exists f, r_format r = Some (VStr f).

(** The package was fetched earlier in the run. *)
Definition fetched (p : pkg) (t : list event) : Prop :=
  exists n, Fetch n (inr p) ∈ t.

(** The resource is one of the resources of a package fetched earlier. *)
Definition of_fetched_package (r : resource) (t : list event) : Prop :=
  exists p rs, fetched p t /\ p_resources p = Some rs /\ r ∈ rs.

(** The event concerns a resource of a package fetched in [t]. *)
Definition from_fetched (t : list event) (ev : event) : Prop :=
  match ev with
  | Migrate r _ => of_fetched_package r t
  | Visit p r => fetched p t /\ exists rs, p_resources p = Some rs /\ r ∈ rs
  | _ => True
  end.

Section Growth.

Context {World : Type}.

Implicit Types (st : @St World).

(** [st'] keeps everything [st] has recorded: counts do not decrease,
    lists are extended at their end, sets grow. *)
Definition extends st st' : Prop :=
  key_errors (out st) <= key_errors (out st')
  /\ validation_errors (out st) <= validation_errors (out st')
  /\ other_errors_list (out st) `prefix_of` other_errors_list (out st')
  /\ pkg_crashes (out st) ⊆ pkg_crashes (out st')
  /\ pkg_crashes_w_error (out st) `prefix_of` pkg_crashes_w_error (out st')
  /\ blacklisted (out st) `prefix_of` blacklisted (out st')
  /\ not_blacklisted (out st) <= not_blacklisted (out st')
  /\ already_on_s3 (out st) `prefix_of` already_on_s3 (out st')
  /\ extensions_seen (out st) ⊆ extensions_seen (out st')
  /\ log st `prefix_of` log st'
  /\ trace st `prefix_of` trace st'.

(** The counters count the calls of [change_to_s3]. *)
Definition counters_match_calls st : Prop :=
  not_blacklisted (out st) = count is_migrate_call (trace st)
  /\ validation_errors (out st) = count is_validation_failure (trace st)
  /\ key_errors (out st) = count is_key_failure (trace st).

(** Every call of [change_to_s3] that raised is recorded. *)
Definition failures_recorded st : Prop :=
  List.length (other_errors_list (out st))
  = count is_other_failure (trace st)
  /\ (count is_failed_call (trace st) = 0 \/ pkg_crashes (out st) <> ∅).

(** The two lists hold the visited resources of their class, in order. *)
Definition lists_match_visits (skip : bool) (blacklist : list string) st : Prop :=
  already_on_s3 (out st)
  = omap (skipped_id skip) (visited_resources (trace st))
  /\ blacklisted (out st)
     = omap (excluded_entry skip blacklist) (visited_resources (trace st)).

(** Only resources of fetched packages are migrated or visited. *)
Definition only_fetched_resources st : Prop :=
  Forall (from_fetched (trace st)) (trace st).

(** The crashed packages were fetched, and there are no more of them than
    recorded failures. *)
Definition crashes_are_fetched st : Prop :=
  (forall i, i ∈ pkg_crashes (out st) ->
     exists p, fetched p (trace st) /\ p_id p = Some i)
  /\ size (pkg_crashes (out st)) <= count is_failed_call (trace st).

(** The extensions seen are lowercase, and each is the lowered format of a
    resource of a fetched package. *)
Definition extensions_are_lowered_formats st : Prop :=
  forall e, e ∈ extensions_seen (out st) ->
    lower e = e
    /\ exists r, of_fetched_package r (trace st) /\ extension_of r = Some e.

End Growth.

(** ** Further example catalogues *)

Definition r_null_format : resource :=
  mk_resource (Some (VStr "legacy")) (Some VNone) (Some (VStr "r6"))
              (Some VNone).

Definition r_on_s3_bare : resource :=
  mk_resource None (Some (VStr "s3")) (Some (VStr "r7")) None.

Definition d_no_id : pkg :=
  mk_pkg None (Some 1%Z) (Some [r_pdf]).

Definition d_no_resources : pkg :=
  mk_pkg (Some (VStr "p6")) (Some 1%Z) None.

(** A site whose user cannot be read. *)
Definition no_site_user : Services unit := {|
  get_site_user w := (w, Some (OtherException "NotAuthorized"));
  package_list w := (w, inr ["d5"]);
  package_show w n := (w, inr d_on_s3);
  resource_update w r := (w, None);
  upload_package_zipfile_to_s3 w p := (w, None) |}.

(** A catalogue without datasets. *)
Definition empty_catalogue : Services unit := {|
  get_site_user w := (w, None);
  package_list w := (w, inr []);
  package_show w n := (w, inl (OtherException "NotFound"));
  resource_update w r := (w, None);
  upload_package_zipfile_to_s3 w p := (w, None) |}.

(** A catalogue whose only dataset has a resource count but no resources. *)
Definition no_resources_only : Services unit := {|
  get_site_user w := (w, None);
  package_list w := (w, inr ["d6"]);
  package_show w n := (w, inr d_no_resources);
  resource_update w r := (w, None);
  upload_package_zipfile_to_s3 w p := (w, None) |}.

(** The catalogue [demo] with an archive store that rejects every archive. *)
Definition no_archives : Services nat := {|
  get_site_user := get_site_user (Services := demo);
  package_list := package_list (Services := demo);
  package_show := package_show (Services := demo);
  resource_update := resource_update (Services := demo);
  upload_package_zipfile_to_s3 w p := (w, Some (OtherException "S3ResponseError")) |}.

(** ** Turns started, and the errors of the calls *)

Section Reached.

Context {World : Type} {services : Services World}.

Implicit Types (st : @St World).

(** The number of turns of a loop that are started: the loop stops after the
    first turn that raises. *)
Fixpoint turns_started {A} (body : A -> @M World unit) (l : list A) st : nat :=
  match l with
  | [] => 0
  | x :: l' =>
      S (match body x st with
         | (st', inr _) => turns_started body l' st'
         | (_, inl _) => 0
         end)
  end.

(** The resources of [p] that the inner loop reaches. *)
Definition resources_reached (skip : bool) (blacklist : list string)
    (p : pkg) st : nat :=
  if gt0 (p_num_resources p) then
    match p_resources p with
    | Some rs => turns_started (iteration skip blacklist p) rs st
    | None => 0
    end
  else 0.

(** The resources that the inner loop reaches over the datasets [names]. *)
Fixpoint reached (skip : bool) (blacklist : list string)
    (names : list string) st : nat :=
  match names with
  | [] => 0
  | name :: names' =>
      match call_package_show name (fst (logger INFO (MsgStarting name) st)) with
      | (st1, inr p) => resources_reached skip blacklist p st1
      | (_, inl _) => 0
      end
      + reached skip blacklist names' (fst (process_dataset skip blacklist name st))
  end.

(** The four buckets hold at least the resources visited. *)
Definition covered st : Prop :=
  visited st <= skipped st + excluded st + migrated st + failed st.

End Reached.













Definition d_no_id_bad : pkg :=
  mk_pkg None (Some 1%Z) (Some [r_bad]).

(** A catalogue of three datasets: two packages without ['id'], in which an
    update is rejected and an update times out, and one package with a
    resource without ['format']. *)
Definition untidy : Services unit := {|
  get_site_user w := (w, None);
  package_list w := (w, inr ["d7"; "d8"; "d4"]);
  package_show w n :=
    (w, if bool_decide (n = "d7") then inr d_no_id_bad
        else if bool_decide (n = "d8") then inr d_no_id
        else inr d_malformed);
  resource_update w r :=
    if bool_decide (r_id r = Some (VStr "r4"))
    then (w, Some (ValidationError "url"))
    else (w, Some (OtherException "timeout"));
  upload_package_zipfile_to_s3 w p := (w, None) |}.

(** * Properties *)

(** ** Counting *)

Lemma count_app {A} (f : A -> bool) (l1 l2 : list A) :
  count f (l1 ++ l2) = count f l1 + count f l2.
Proof. unfold count. rewrite List.filter_app, List.length_app. reflexivity. Qed.

Lemma count_snoc {A} (f : A -> bool) (l : list A) (x : A) :
  count f (l ++ [x]) = count f l + (if f x then 1 else 0).
Proof. rewrite count_app. unfold count. simpl. destruct (f x); reflexivity. Qed.

Lemma omap_snoc {A B} (f : A -> option B) (l : list A) (x : A) :
  omap f (l ++ [x]) = omap f l ++ match f x with Some y => [y] | None => [] end.
Proof. rewrite omap_app. simpl. destruct (f x); reflexivity. Qed.

(** ** The loops *)

Section Rules.

Context {World : Type} {services : Services World}.

Local Abbreviation M := (@M World).
Implicit Types (st : @St World) (I : @St World -> Prop).

Lemma for_each_app {A} (body : A -> M unit) (l1 l2 : list A) st :
  for_each body (l1 ++ l2) st = (for_each body l1 ;; for_each body l2) st.
Proof.
  revert st. induction l1 as [|x l1 IH]; intros st; simpl.
  - reflexivity.
  - unfold bind in *. destruct (body x st) as [st' [e|[]]]; [reflexivity|].
    apply IH.
Qed.

Lemma for_each_preserves {A} I (body : A -> M unit) (l : list A) :
  (forall x, preserves I (body x)) -> preserves I (for_each body l).
Proof.
  intros Hbody. induction l as [|x l IH]; intros st HI; simpl.
  - exact HI.
  - unfold bind. specialize (Hbody x st HI).
    destruct (body x st) as [st' [e|[]]]; simpl in *; [exact Hbody|].
    apply IH, Hbody.
Qed.


(** What follows a computation depends on its state and result only. *)
Lemma bind_from {A B} (c c' : M A) (k : A -> M B) st st' :
  c st = c' st' -> (x <- c ;; k x) st = (x <- c' ;; k x) st'.
Proof. intros H. unfold bind. rewrite H. reflexivity. Qed.

(** An iteration that raises ends the loop: the rest is not run. *)
Lemma for_each_raise {A} (body : A -> M unit) (x : A) (l : list A) st st' e :
  body x st = (st', inl e) -> for_each body (x :: l) st = (st', inl e).
Proof. intros H. simpl. unfold bind. rewrite H. reflexivity. Qed.

(** An iteration that returns hands its state to the next one. *)
Lemma for_each_continue {A} (body : A -> M unit) (x : A) (l : list A) st st' :
  body x st = (st', inr tt) -> for_each body (x :: l) st = for_each body l st'.
Proof. intros H. simpl. unfold bind. rewrite H. reflexivity. Qed.

(** The body of the outer loop, by cases on what the three steps return. *)
Lemma process_dataset_eq skip bl name st :
  process_dataset skip bl name st =
  match call_package_show name (fst (logger INFO (MsgStarting name) st)) with
  | (st1, inl e) => dataset_handler name e st1
  | (st1, inr p) =>
      match process_resources skip bl p st1 with
      | (st2, inl e) => dataset_handler name e st2
      | (st2, inr _) =>
          match call_upload_package_zipfile_to_s3 p st2 with
          | (st3, inl e) => dataset_handler name e st3
          | (st3, inr _) => (st3, inr tt)
          end
      end
  end.
Proof.
  unfold process_dataset, dataset_body, try_except, bind. simpl.
  destruct (call_package_show name _) as [st1 [e|p]]; [reflexivity|].
  destruct (process_resources skip bl p st1) as [st2 [e|[]]]; [reflexivity|].
  destruct (call_upload_package_zipfile_to_s3 p st2) as [st3 [e|[]]]; reflexivity.
Qed.

Lemma dataset_handler_total name e : total (dataset_handler name e : M unit).
Proof. intros st. exists tt. reflexivity. Qed.

Lemma process_dataset_total skip bl name : total (process_dataset skip bl name).
Proof.
  intros st. rewrite process_dataset_eq.
  destruct (call_package_show name _) as [st1 [e|p]]; [apply dataset_handler_total|].
  destruct (process_resources skip bl p st1) as [st2 [e|[]]]; [apply dataset_handler_total|].
  destruct (call_upload_package_zipfile_to_s3 p st2) as [st3 [e|[]]];
    [apply dataset_handler_total|].
  exists tt. reflexivity.
Qed.

End Rules.

(** ** Invariants: from the steps to the run *)

(** Unfolds one turn of the inner loop down to the accumulators. *)
Ltac run_step :=
  unfold iteration, process_resource, migration_handler, try_except, bind,
    getitem, str_lower, ret, raise, modify, emit, logger, change_to_s3 in *;
  simpl in *.

(** Unfolds the calls of the outer loop. *)
Ltac run_calls :=
  unfold call_package_show, call_upload_package_zipfile_to_s3,
    call_get_site_user, call_package_list, dataset_handler, summary, gets,
    bind, ret, raise, modify, emit, logger in *;
  simpl in *.

Section Run.

Context {World : Type} {services : Services World}.

Local Abbreviation M := (@M World).
Implicit Types (st : @St World) (I : @St World -> Prop).

Lemma process_resources_preserves I skip bl p :
  (forall r, preserves I (iteration skip bl p r)) ->
  preserves I (process_resources skip bl p).
Proof.
  intros Hiter st HI. unfold process_resources.
  destruct (gt0 (p_num_resources p)); [|exact HI].
  unfold bind, iter. destruct (p_resources p) as [rs|]; simpl; [|exact HI].
  apply for_each_preserves; assumption.
Qed.

(** An invariant of the outer loop's body: it is enough that the fetch, each
    turn of the inner loop, the packaging and the outer handler keep it.
    [ok] is what is known of the fetched package. *)
Lemma process_dataset_preserves I (ok : pkg -> Prop) skip bl name :
  preserves I (logger INFO (MsgStarting name) : M unit) ->
  (forall st, I st ->
     match call_package_show name st with
     | (st1, inl e) => I (fst (dataset_handler name e st1))
     | (st1, inr p) => I st1 /\ ok p
     end) ->
  (forall p r, ok p -> preserves I (iteration skip bl p r)) ->
  (forall p st, I st ->
     match call_upload_package_zipfile_to_s3 p st with
     | (st3, inl e) => I (fst (dataset_handler name e st3))
     | (st3, inr _) => I st3
     end) ->
  (forall e, preserves I (dataset_handler name e : M unit)) ->
  preserves I (process_dataset skip bl name).
Proof.
  intros Hstart Hfetch Hiter Hpack Hcrash st HI.
  rewrite process_dataset_eq.
  specialize (Hfetch _ (Hstart st HI)).
  destruct (call_package_show name _) as [st1 [e|p]]; [exact Hfetch|].
  destruct Hfetch as [HI1 Hok].
  pose proof (process_resources_preserves I skip bl p
                (fun r => Hiter p r Hok) st1 HI1) as HI2.
  destruct (process_resources skip bl p st1) as [st2 [e|[]]]; simpl in HI2.
  - apply Hcrash, HI2.
  - specialize (Hpack p st2 HI2).
    destruct (call_upload_package_zipfile_to_s3 p st2) as [st3 [e|[]]];
      exact Hpack.
Qed.

(** An invariant of the whole command. *)
Lemma command_preserves I (ok : pkg -> Prop) args config :
  let skip := skip_existing_s3_upload args in
  let bl := blacklist_of_config config in
  (forall w st, I st -> I (with_world w st)) ->
  (forall name, preserves I (process_dataset skip bl name)) ->
  preserves I (summary : M unit) ->
  preserves I (command args config).
Proof.
  intros skip bl Hworld Hdataset Hsummary st HI.
  unfold command, migrate, bind.
  unfold call_get_site_user.
  destruct (get_site_user (world st)) as [w1 [e|]]; simpl; [apply Hworld, HI|].
  unfold call_package_list. simpl.
  destruct (package_list w1) as [w2 [e|names]]; simpl;
    [apply Hworld, Hworld, HI|].
  pose proof (for_each_preserves I _ names Hdataset
                (with_world w2 (with_world w1 st))
                (Hworld _ _ (Hworld _ _ HI))) as Hloop.
  fold skip bl.
  destruct (for_each (process_dataset skip bl) names _) as [st' [e|[]]];
    simpl in *; [exact Hloop|].
  apply Hsummary, Hloop.
Qed.

(** The report: eleven lines appended to the log, nothing else touched. *)
Lemma summary_eq st :
  summary st = (with_log (log st ++ summary_lines (out st)) st, inr tt).
Proof.
  cbv [summary gets bind for_each summary_lines logger ret with_log fst snd
       log world out trace].
  destruct st as [w o l t]. rewrite <- !app_assoc. reflexivity.
Qed.

(** Once the catalogue is listed, the command is the loop and the report. *)
Lemma command_eq args config (w0 w1 w2 : World) names :
  get_site_user w0 = (w1, None) ->
  package_list w1 = (w2, inr names) ->
  command args config (init w0)
  = migrate (skip_existing_s3_upload args) (blacklist_of_config config)
            names (init w2).
Proof.
  intros Huser Hlist.
  unfold command, bind, call_get_site_user, call_package_list. simpl.
  rewrite Huser. simpl. rewrite Hlist. reflexivity.
Qed.

End Run.

(** ** The four buckets *)

Section Balance.

Context {World : Type} {services : Services World}.

Implicit Types (st : @St World).

Ltac buckets :=
  unfold balanced, covered, skipped, excluded, migrated, failed, visited in *;
  simpl in *; rewrite ?count_snoc, ?List.length_app in *; simpl in *.

Lemma iteration_balanced skip bl p r :
  is_Some (p_id p) -> preserves balanced (iteration skip bl p r).
Proof.
  intros [i Hi] st HI. buckets. run_step. rewrite Hi.
  repeat (case_match; simplify_eq/=); buckets; lia.
Qed.

(** A turn of the inner loop that runs to its end puts the resource into
    one bucket, and only one. *)
Lemma iteration_one_bucket skip bl p r st :
  snd (iteration skip bl p r st) = inr tt ->
  let st' := fst (iteration skip bl p r st) in
  visited st' = visited st + 1
  /\ (   (skipped st' = skipped st + 1 /\ excluded st' = excluded st
          /\ migrated st' = migrated st /\ failed st' = failed st)
      \/ (skipped st' = skipped st /\ excluded st' = excluded st + 1
          /\ migrated st' = migrated st /\ failed st' = failed st)
      \/ (skipped st' = skipped st /\ excluded st' = excluded st
          /\ migrated st' = migrated st + 1 /\ failed st' = failed st)
      \/ (skipped st' = skipped st /\ excluded st' = excluded st
          /\ migrated st' = migrated st /\ failed st' = failed st + 1)).
Proof.
  buckets. run_step.
  repeat (case_match; simplify_eq/=); intros; simplify_eq/=; buckets;
    (split; [lia|]).
  all: first [ left; lia | right; left; lia | right; right; left; lia
             | right; right; right; lia ].
Qed.

Lemma process_dataset_balanced skip bl name :
  packages_have_id services -> preserves balanced (process_dataset skip bl name).
Proof.
  intros Hid.
  apply (process_dataset_preserves balanced (fun p => is_Some (p_id p))).
  - intros st HI. exact HI.
  - intros st HI. unfold call_package_show.
    destruct (package_show (world st) name) as [w [e|p]] eqn:E; simpl.
    + buckets. lia.
    + split; [buckets; lia|]. exact (Hid _ _ _ _ E).
  - intros p r Hp. apply iteration_balanced, Hp.
  - intros p st HI. unfold call_upload_package_zipfile_to_s3.
    destruct (upload_package_zipfile_to_s3 (world st) p) as [w [e|]];
      simpl; buckets; lia.
  - intros e st HI. buckets. lia.
Qed.

Lemma command_balanced args config :
  packages_have_id services -> preserves balanced (command args config).
Proof.
  intros Hid. apply (command_preserves balanced (fun _ => True)).
  - intros w st HI. exact HI.
  - intros name. apply process_dataset_balanced, Hid.
  - intros st HI. exact HI.
Qed.

Lemma iteration_covered skip bl p r :
  preserves covered (iteration skip bl p r).
Proof.
  intros st HI. buckets. run_step.
  repeat (case_match; simplify_eq/=); buckets; lia.
Qed.

Lemma command_covered args config :
  preserves covered (command args config).
Proof.
  apply (command_preserves covered (fun _ => True)).
  - intros w st HI. exact HI.
  - intros name.
    apply (process_dataset_preserves covered (fun _ => True)).
    + intros st HI. exact HI.
    + intros st HI. unfold call_package_show.
      destruct (package_show (world st) name) as [w [e|p]]; simpl;
        [|split; [|exact I]]; buckets; lia.
    + intros p r _. apply iteration_covered.
    + intros p st HI. unfold call_upload_package_zipfile_to_s3.
      destruct (upload_package_zipfile_to_s3 (world st) p) as [w [e|]];
        simpl; buckets; lia.
    + intros e st HI. buckets. lia.
  - intros st HI. exact HI.
Qed.

(** A turn of the inner loop, whether it returns or raises, adds at most one
    resource to the buckets. *)
Lemma iteration_at_most_one skip bl p r st :
  let st' := fst (iteration skip bl p r st) in
  skipped st' + excluded st' + migrated st' + failed st'
  <= skipped st + excluded st + migrated st + failed st + 1.
Proof.
  buckets. run_step.
  repeat (case_match; simplify_eq/=); buckets; lia.
Qed.

Lemma loop_within_turns skip bl p rs st :
  let st' := fst (for_each (iteration skip bl p) rs st) in
  skipped st' + excluded st' + migrated st' + failed st'
  <= skipped st + excluded st + migrated st + failed st
     + turns_started (iteration skip bl p) rs st.
Proof.
  revert st. induction rs as [|r rs IH]; intros st; simpl; [lia|].
  pose proof (iteration_at_most_one skip bl p r st) as H1.
  unfold bind. destruct (iteration skip bl p r st) as [st1 [e|[]]];
    simpl in *; [lia|].
  specialize (IH st1). simpl in IH. lia.
Qed.

Lemma process_dataset_within_reached skip bl name st :
  let st' := fst (process_dataset skip bl name st) in
  skipped st' + excluded st' + migrated st' + failed st'
  <= skipped st + excluded st + migrated st + failed st
     + match call_package_show name (fst (logger INFO (MsgStarting name) st)) with
       | (st1, inr p) => resources_reached skip bl p st1
       | (_, inl _) => 0
       end.
Proof.
  intros st'. subst st'. rewrite process_dataset_eq.
  unfold call_package_show. simpl.
  destruct (package_show (world st) name) as [w [e|p]]; simpl;
    [buckets; lia|].
  unfold resources_reached, process_resources.
  match goal with
  | |- context [with_trace ?t ?s] => set (st1 := with_trace t s)
  end.
  assert (H1 : skipped st1 + excluded st1 + migrated st1 + failed st1
               = skipped st + excluded st + migrated st + failed st).
  { subst st1. buckets. lia. }
  assert (Hend : forall st2,
             let st3 := fst (match call_upload_package_zipfile_to_s3 p st2 with
                             | (s, inl e) => dataset_handler name e s
                             | (s, inr _) => (s, inr tt)
                             end) in
             skipped st3 + excluded st3 + migrated st3 + failed st3
             = skipped st2 + excluded st2 + migrated st2 + failed st2).
  { intros st2. unfold call_upload_package_zipfile_to_s3.
    destruct (upload_package_zipfile_to_s3 (world st2) p) as [w3 [e|]];
      simpl; buckets; lia. }
  destruct (gt0 (p_num_resources p)).
  - unfold bind, iter. destruct (p_resources p) as [rs|]; simpl.
    + pose proof (loop_within_turns skip bl p rs st1) as Hloop.
      destruct (for_each (iteration skip bl p) rs st1) as [st2 [e|[]]];
        simpl in Hloop.
      * buckets. lia.
      * specialize (Hend st2). simpl in Hend. lia.
    + buckets. lia.
  - unfold ret. specialize (Hend st1). simpl in Hend. lia.
Qed.

Lemma datasets_within_reached skip bl names st :
  let st' := fst (for_each (process_dataset skip bl) names st) in
  skipped st' + excluded st' + migrated st' + failed st'
  <= skipped st + excluded st + migrated st + failed st
     + reached skip bl names st.
Proof.
  revert st. induction names as [|name names IH]; intros st; simpl; [lia|].
  pose proof (process_dataset_within_reached skip bl name st) as H1.
  destruct (process_dataset_total skip bl name st) as [[] Ht].
  unfold bind.
  destruct (process_dataset skip bl name st) as [st1 [e|[]]]; simpl in *;
    [discriminate|].
  specialize (IH st1). simpl in IH. lia.
Qed.

Lemma command_within_reached args config (w0 w1 w2 : World) names :
  get_site_user w0 = (w1, None) ->
  package_list w1 = (w2, inr names) ->
  let st := fst (command args config (init w0)) in
  skipped st + excluded st + migrated st + failed st
  <= reached (skip_existing_s3_upload args) (blacklist_of_config config)
       names (init w2).
Proof.
  intros Huser Hlist st. subst st.
  rewrite (command_eq args config w0 w1 w2 names Huser Hlist).
  unfold migrate, bind.
  pose proof (datasets_within_reached (skip_existing_s3_upload args)
                (blacklist_of_config config) names (init w2)) as H.
  cbv zeta in H.
  destruct (for_each _ names (init w2)) as [st1 [e|[]]];
    [|rewrite summary_eq]; buckets; lia.
Qed.

(** C2, as the code has it: a resource whose turn of the inner loop runs to
    its end is put into exactly one of the four buckets (skipped as already
    on S3, excluded by file type, migrated, failed); at the end of any run
    the four counts add up to at least the number of these resources, and
    to exactly that number when the packages of the catalogue carry their
    'id'.  A resource on which the turn raises is not among them; it is in
    one bucket or in none, so that the four counts add up to at most the
    number of resources the inner loop reaches. *)
Theorem buckets_partition_visited args config (w : World) :
  let st := fst (command args config (init w)) in
  (packages_have_id services ->
   skipped st + excluded st + migrated st + failed st = visited st)
  /\ visited st <= skipped st + excluded st + migrated st + failed st
  /\ (forall skip bl p r st0,
        snd (iteration skip bl p r st0) = inr tt ->
        let st' := fst (iteration skip bl p r st0) in
        visited st' = visited st0 + 1
        /\ (   (skipped st' = skipped st0 + 1 /\ excluded st' = excluded st0
                /\ migrated st' = migrated st0 /\ failed st' = failed st0)
            \/ (skipped st' = skipped st0 /\ excluded st' = excluded st0 + 1
                /\ migrated st' = migrated st0 /\ failed st' = failed st0)
            \/ (skipped st' = skipped st0 /\ excluded st' = excluded st0
                /\ migrated st' = migrated st0 + 1 /\ failed st' = failed st0)
            \/ (skipped st' = skipped st0 /\ excluded st' = excluded st0
                /\ migrated st' = migrated st0 /\ failed st' = failed st0 + 1)))
  /\ (forall w1 w2 names,
        get_site_user w = (w1, None) ->
        package_list w1 = (w2, inr names) ->
        skipped st + excluded st + migrated st + failed st
        <= reached (skip_existing_s3_upload args) (blacklist_of_config config)
             names (init w2)).
Proof.
  intros st. split; [|split; [|split]].
  - intros Hid. apply (command_balanced args config Hid (init w)). reflexivity.
  - apply (command_covered args config (init w)). unfold covered.
    vm_compute. constructor.
  - intros skip bl p r st0. apply iteration_one_bucket.
  - intros w1 w2 names. apply command_within_reached.
Qed.

End Balance.

(** ** Forced runs skip nothing *)

Section Forced.

Context {World : Type} {services : Services World}.

Implicit Types (st : @St World).

Ltac skips :=
  unfold nothing_skipped in *; simpl in *;
  rewrite ?count_snoc in *; simpl in *.

Lemma iteration_nothing_skipped bl p r :
  preserves nothing_skipped (iteration false bl p r).
Proof.
  intros st [Hs Hl]. skips. run_step.
  repeat (case_match; simplify_eq/=); skips; split; (assumption || lia).
Qed.

Lemma process_dataset_nothing_skipped bl name :
  preserves nothing_skipped (process_dataset false bl name).
Proof.
  apply (process_dataset_preserves nothing_skipped (fun _ => True)).
  - intros st [Hs Hl]. skips. split; (assumption || lia).
  - intros st [Hs Hl]. unfold call_package_show.
    destruct (package_show (world st) name) as [w [e|p]]; skips;
      repeat split; (assumption || lia).
  - intros p r _. apply iteration_nothing_skipped.
  - intros p st [Hs Hl]. unfold call_upload_package_zipfile_to_s3.
    destruct (upload_package_zipfile_to_s3 (world st) p) as [w [e|]];
      skips; split; (assumption || lia).
  - intros e st [Hs Hl]. skips. split; (assumption || lia).
Qed.

Lemma summary_nothing_skipped :
  preserves nothing_skipped (summary : @M World unit).
Proof. intros st [Hs Hl]. skips. split; (assumption || lia). Qed.

(** C5: in a forced run ([force_s3], so that [skip_existing_s3_upload] is
    false) no resource is skipped as already on S3, whatever its
    ['url_type']: the list of skipped resources is empty at the end, and no
    such line is logged. *)
Theorem force_mode_skips_nothing args config (w : World) :
  skip_existing_s3_upload args = false ->
  let st := fst (command args config (init w)) in
  already_on_s3 (out st) = []
  /\ skipped st = 0
  /\ count is_already_msg (log st) = 0.
Proof.
  intros Hforce st.
  assert (nothing_skipped st) as [Hs Hl].
  { apply (command_preserves nothing_skipped (fun _ => True)).
    - intros w' st' HI. exact HI.
    - rewrite Hforce. intros name. apply process_dataset_nothing_skipped.
    - apply summary_nothing_skipped.
    - split; reflexivity. }
  unfold skipped. rewrite Hs. auto.
Qed.

End Forced.

(** ** The file type policy *)

Section Policy.

Context {World : Type} {services : Services World}.

Implicit Types (st : @St World).

Lemma iteration_only_allowed skip bl p r :
  preserves (only_allowed_migrated bl) (iteration skip bl p r).
Proof.
  intros st HI. unfold only_allowed_migrated in *. run_step.
  repeat (case_match; simplify_eq/=);
    rewrite ?Forall_app; repeat split; try assumption;
    repeat constructor.
  all: simpl; unfold extension_of;
    match goal with H : r_format _ = _ |- _ => rewrite H end;
    eexists; split; [reflexivity|].
  all: match goal with
       | H : bool_decide _ = true |- _ => exact (bool_decide_eq_true_1 _ H)
       end.
Qed.

Lemma process_dataset_only_allowed skip bl name :
  preserves (only_allowed_migrated bl) (process_dataset skip bl name).
Proof.
  apply (process_dataset_preserves (only_allowed_migrated bl) (fun _ => True)).
  - intros st HI. exact HI.
  - intros st HI. unfold call_package_show, only_allowed_migrated in *.
    destruct (package_show (world st) name) as [w [e|p]]; simpl;
      rewrite ?Forall_app; repeat split; try assumption; repeat constructor.
  - intros p r _. apply iteration_only_allowed.
  - intros p st HI.
    unfold call_upload_package_zipfile_to_s3, only_allowed_migrated in *.
    destruct (upload_package_zipfile_to_s3 (world st) p) as [w [e|]]; simpl;
      rewrite ?Forall_app; repeat split; try assumption; repeat constructor.
  - intros e st HI. exact HI.
Qed.

Lemma command_only_allowed args config :
  preserves (only_allowed_migrated (blacklist_of_config config))
            (command args config).
Proof.
  apply (command_preserves _ (fun _ => True)).
  - intros w st HI. exact HI.
  - intros name. apply process_dataset_only_allowed.
  - intros st HI. exact HI.
Qed.

Lemma iteration_nothing_excluded skip p r :
  preserves nothing_excluded (iteration skip [] p r).
Proof.
  intros st HI. unfold nothing_excluded in *. run_step.
  repeat (case_match; simplify_eq/=); try assumption.
  all: match goal with
       | H : bool_decide _ = false |- _ =>
           apply bool_decide_eq_false in H; exfalso; apply H, not_elem_of_nil
       end.
Qed.

Lemma command_nothing_excluded args config :
  blacklist_of_config config = [] ->
  preserves nothing_excluded (command args config).
Proof.
  intros Hbl. apply (command_preserves _ (fun _ => True)).
  - intros w st HI. exact HI.
  - intros name. rewrite Hbl.
    apply (process_dataset_preserves nothing_excluded (fun _ => True)).
    + intros st HI. exact HI.
    + intros st HI. unfold call_package_show.
      destruct (package_show (world st) name) as [w [e|p]]; simpl; auto.
    + intros p r _. apply iteration_nothing_excluded.
    + intros p st HI. unfold call_upload_package_zipfile_to_s3.
      destruct (upload_package_zipfile_to_s3 (world st) p) as [w [e|]];
        simpl; auto.
    + intros e st HI. exact HI.
  - intros st HI. exact HI.
Qed.

(** What line 110 does to the state for resource id [i] and extension
    [ext]. *)
Lemma excluded_step skip bl p r st f i :
  not_skipped skip r ->
  r_format r = Some (VStr f) ->
  lower f ∈ bl ->
  r_id r = Some i ->
  process_resource skip bl p r st =
  (mk_St (world st)
     (with_blacklisted
        (blacklisted (out st) ++ [mk_blacklisted i (lower f)])
        (with_extensions_seen (extensions_seen (out st) ∪ {[lower f]}) (out st)))
     (log st ++ [(INFO, MsgBlacklisted (resource_name r))])
     (trace st),
   inr tt).
Proof.
  intros Hns Hf Hbl Hi. run_step. rewrite Hf, Hi.
  destruct Hns as [->|(u & Hu & Hne)]; [|rewrite Hu; destruct skip]; simpl;
    rewrite ?(bool_decide_eq_false_2 _ Hne); simpl;
    (rewrite bool_decide_eq_false_2; [reflexivity|]);
    intros Hn; apply Hn, Hbl.
Qed.

(** C6: a resource that is not skipped and whose lowercased extension is in
    the exclusion set is not handed to the migration action: its id and
    extension are appended to the excluded list, the count of eligible
    resources stays, and no external call is made; over a whole run, every
    resource handed to the migration action has an extension outside the
    exclusion set. *)
Theorem excluded_never_migrated skip bl p r (st : @St World) f i :
  not_skipped skip r ->
  r_format r = Some (VStr f) ->
  lower f ∈ bl ->
  r_id r = Some i ->
  let res := process_resource skip bl p r st in
  snd res = inr tt
  /\ trace (fst res) = trace st
  /\ world (fst res) = world st
  /\ blacklisted (out (fst res)) =
       blacklisted (out st) ++ [mk_blacklisted i (lower f)]
  /\ not_blacklisted (out (fst res)) = not_blacklisted (out st)
  /\ (forall args config (w : World),
        Forall (migrate_allowed (blacklist_of_config config))
               (trace (fst (command args config (init w))))).
Proof.
  intros Hns Hf Hbl Hi res. subst res.
  rewrite (excluded_step skip bl p r st f i Hns Hf Hbl Hi). simpl.
  repeat split.
  intros args config w.
  apply (command_only_allowed args config (init w)). constructor.
Qed.

End Policy.

(** ** Strings: splitting and lowering *)

Lemma append_cons c (s1 s2 : string) :
  String.append (String c s1) s2 = String c (String.append s1 s2).
Proof. reflexivity. Qed.

Lemma append_nil_r (s : string) : String.append s EmptyString = s.
Proof.
  induction s as [|c s IH]; [reflexivity|].
  rewrite append_cons, IH. reflexivity.
Qed.

Lemma append_assoc (s1 s2 s3 : string) :
  String.append (String.append s1 s2) s3 = String.append s1 (String.append s2 s3).
Proof.
  induction s1 as [|c s1 IH]; [reflexivity|].
  rewrite !append_cons, IH. reflexivity.
Qed.

Lemma has_space_append (s1 s2 : string) :
  has_space (String.append s1 s2) = has_space s1 || has_space s2.
Proof.
  induction s1 as [|c s1 IH]; [reflexivity|].
  rewrite append_cons. simpl. rewrite IH. apply orb_assoc.
Qed.

(** Reading a run without whitespace only extends the current token. *)
Lemma split_go_token tok t s :
  has_space t = false ->
  split_go tok (String.append t s) = split_go (String.append tok t) s.
Proof.
  revert tok. induction t as [|c t IH]; intros tok Ht.
  - rewrite append_nil_r. reflexivity.
  - simpl in Ht. apply orb_false_elim in Ht as [Hc Ht].
    rewrite append_cons. simpl. rewrite Hc, (IH _ Ht), append_assoc.
    reflexivity.
Qed.

Lemma split_empty : split EmptyString = [].
Proof. reflexivity. Qed.

Lemma split_space c s : is_space c = true -> split (String c s) = split s.
Proof. intros Hc. unfold split. simpl. rewrite Hc. reflexivity. Qed.

Lemma split_token_space t c s :
  is_token t -> is_space c = true ->
  split (String.append t (String c s)) = t :: split s.
Proof.
  intros [Hne Ht] Hc. unfold split. rewrite (split_go_token _ _ _ Ht). simpl.
  rewrite Hc. destruct t; [contradiction|reflexivity].
Qed.

Lemma split_token t : is_token t -> split t = [t].
Proof.
  intros [Hne Ht]. unfold split.
  rewrite <- (append_nil_r t) at 1. rewrite (split_go_token _ _ _ Ht). simpl.
  destruct t; [contradiction|reflexivity].
Qed.

Lemma split_go_tokens tok s :
  has_space tok = false -> Forall is_token (split_go tok s).
Proof.
  revert tok. induction s as [|c s IH]; intros tok Htok; simpl.
  - destruct tok; [constructor|].
    repeat constructor; [discriminate|assumption].
  - destruct (is_space c) eqn:Hc.
    + destruct tok; [apply IH; reflexivity|].
      constructor; [split; [discriminate|assumption]|apply IH; reflexivity].
    + apply IH. rewrite has_space_append, Htok. simpl. rewrite Hc. reflexivity.
Qed.

Lemma split_tokens s : Forall is_token (split s).
Proof. apply split_go_tokens. reflexivity. Qed.

Lemma lower_ascii_idemp c : lower_ascii (lower_ascii c) = lower_ascii c.
Proof. destruct c as [[] [] [] [] [] [] [] []]; reflexivity. Qed.

Lemma lower_idemp s : lower (lower s) = lower s.
Proof.
  induction s as [|c s IH]; simpl; [reflexivity|].
  rewrite lower_ascii_idemp, IH. reflexivity.
Qed.

Lemma is_space_lower c : is_space (lower_ascii c) = is_space c.
Proof. destruct c as [[] [] [] [] [] [] [] []]; reflexivity. Qed.

Lemma lower_append s1 s2 :
  lower (String.append s1 s2) = String.append (lower s1) (lower s2).
Proof.
  induction s1 as [|c s1 IH]; [reflexivity|].
  rewrite append_cons. simpl. rewrite IH. reflexivity.
Qed.

(** Splitting commutes with lowering. *)
Lemma split_go_lower tok s :
  split_go (lower tok) (lower s) = map lower (split_go tok s).
Proof.
  revert tok. induction s as [|c s IH]; intros tok; simpl.
  - destruct tok; reflexivity.
  - rewrite is_space_lower. destruct (is_space c).
    + destruct tok; simpl; [apply (IH EmptyString)|].
      f_equal. apply (IH EmptyString).
    + rewrite <- IH, lower_append. reflexivity.
Qed.

Lemma blacklist_of_config_lower s :
  blacklist_of_config (Some (lower s)) = blacklist_of_config (Some s).
Proof.
  unfold blacklist_of_config, split. simpl.
  change (split_go EmptyString (lower s))
    with (split_go (lower EmptyString) (lower s)).
  rewrite (split_go_lower EmptyString s), List.map_map.
  apply List.map_ext. intros t. apply lower_idemp.
Qed.

Lemma elem_of_blacklist config e :
  e ∈ blacklist_of_config config <->
  exists tok, tok ∈ split (default EmptyString config) /\ lower tok = e.
Proof.
  unfold blacklist_of_config. rewrite list_elem_of_In, in_map_iff.
  split; intros (tok & H1 & H2); exists tok.
  - split; [apply list_elem_of_In, H2|exact H1].
  - split; [exact H2|apply list_elem_of_In, H1].
Qed.

(** C8: the exclusion set is the configuration string split on whitespace,
    each token lowercased; a resource is excluded exactly when a token and
    its format are equal up to case; an unset or empty configuration
    excludes nothing. *)
Theorem exclusion_set_from_config :
  (forall config,
     blacklist_of_config config = map lower (split (default EmptyString config)))
  /\ split EmptyString = []
  /\ (forall c s, is_space c = true -> split (String c s) = split s)
  /\ (forall t c s, is_token t -> is_space c = true ->
        split (String.append t (String c s)) = t :: split s)
  /\ (forall t, is_token t -> split t = [t])
  /\ (forall s, Forall is_token (split s))
  /\ (forall config e, e ∈ blacklist_of_config config -> lower e = e)
  /\ (forall config f,
        lower f ∈ blacklist_of_config config <->
        exists tok, tok ∈ split (default EmptyString config)
                    /\ lower tok = lower f)
  /\ (forall s, blacklist_of_config (Some (lower s)) = blacklist_of_config (Some s))
  /\ blacklist_of_config None = []
  /\ blacklist_of_config (Some EmptyString) = []
  /\ (forall World (services : Services World) skip config p r
             (st : @St World) f i tok,
        not_skipped skip r -> r_format r = Some (VStr f) -> r_id r = Some i ->
        tok ∈ split (default EmptyString config) -> lower tok = lower f ->
        blacklisted (out (fst (process_resource skip (blacklist_of_config config) p r st)))
        = blacklisted (out st) ++ [mk_blacklisted i (lower f)])
  /\ (forall World (services : Services World) args config (w : World),
        blacklist_of_config config = [] ->
        blacklisted (out (fst (command args config (init w)))) = []).
Proof.
  repeat apply conj.
  - reflexivity.
  - apply split_empty.
  - apply split_space.
  - apply split_token_space.
  - apply split_token.
  - apply split_tokens.
  - intros config e He. apply elem_of_blacklist in He as (tok & _ & <-).
    apply lower_idemp.
  - intros config f. apply elem_of_blacklist.
  - apply blacklist_of_config_lower.
  - reflexivity.
  - reflexivity.
  - intros World services skip config p r st f i tok Hns Hf Hi Htok Hlow.
    rewrite (excluded_step skip _ p r st f i Hns Hf); [reflexivity| |exact Hi].
    apply elem_of_blacklist. exists tok. split; assumption.
  - intros World services args config w Hbl.
    apply (command_nothing_excluded args config Hbl (init w)). reflexivity.
Qed.

(** ** Containment of failures *)

Section Containment.

Context {World : Type} {services : Services World}.

Local Abbreviation M := (@M World).
Implicit Types (st : @St World).




End Containment.

(** ** Dataset-level failures *)

Section Datasets.

Context {World : Type} {services : Services World}.

Local Abbreviation M := (@M World).
Implicit Types (st : @St World).

(** The inner loop writes no dataset-level record. *)
Lemma iteration_keeps_crash_list skip bl p r l :
  preserves (fun st => pkg_crashes_w_error (out st) = l) (iteration skip bl p r).
Proof.
  intros st HI. run_step. repeat (case_match; simplify_eq/=); reflexivity.
Qed.

Lemma dataset_body_keeps_crash_list skip bl name st :
  pkg_crashes_w_error (out (fst (dataset_body skip bl name st)))
  = pkg_crashes_w_error (out st).
Proof.
  unfold dataset_body, bind, call_package_show.
  destruct (package_show (world st) name) as [w [e|p]]; simpl; [reflexivity|].
  pose proof (process_resources_preserves _ skip bl p
                (fun r => iteration_keeps_crash_list skip bl p r
                            (pkg_crashes_w_error (out st)))
                (with_trace (trace st ++ [Fetch name (inr p)])
                            (with_world w st)) eq_refl) as H.
  destruct (process_resources skip bl p _) as [st2 [e|[]]]; simpl in *;
    [exact H|].
  unfold call_upload_package_zipfile_to_s3.
  destruct (upload_package_zipfile_to_s3 (world st2) p) as [w3 [e|]];
    simpl; exact H.
Qed.

End Datasets.

(** ** Malformed resources and the packaging call *)

Section Packaging.

Context {World : Type} {services : Services World}.

Local Abbreviation M := (@M World).
Implicit Types (st : @St World).

(** A lookup that fails while the resource is classified raises out of the
    loop body; no failure is counted and no external call is made. *)
Lemma classification_key_error_step skip bl p r st k :
  classification_key_error skip bl r = Some k ->
  let res := process_resource skip bl p r st in
  snd res = inl (KeyError k)
  /\ key_errors (out (fst res)) = key_errors (out st)
  /\ validation_errors (out (fst res)) = validation_errors (out st)
  /\ other_errors_list (out (fst res)) = other_errors_list (out st)
  /\ pkg_crashes (out (fst res)) = pkg_crashes (out st)
  /\ pkg_crashes_w_error (out (fst res)) = pkg_crashes_w_error (out st)
  /\ not_blacklisted (out (fst res)) = not_blacklisted (out st)
  /\ world (fst res) = world st
  /\ trace (fst res) = trace st.
Proof.
  unfold classification_key_error. intros Hk. run_step.
  repeat (case_match; simplify_eq/=); repeat split; try reflexivity.
  all: match goal with
       | H : bool_decide (_ ∉ _) = true, H' : bool_decide (_ ∈ _) = true |- _ =>
           apply bool_decide_eq_true in H, H'; contradiction
       end.
Qed.

(** C9: a key lookup that fails while a resource is classified (its
    ['url_type'], ['format'] or ['id']) is not counted as a resource-level
    key error; it leaves the inner loop, so that the remaining resources
    are not processed and the dataset is not packaged, and it is recorded
    once, as a dataset-level error. *)
Theorem classification_key_error_aborts_dataset skip bl p r st k :
  classification_key_error skip bl r = Some k ->
  let res := process_resource skip bl p r st in
  let st' := fst res in
  snd res = inl (KeyError k)
  /\ key_errors (out st') = key_errors (out st)
  /\ validation_errors (out st') = validation_errors (out st)
  /\ other_errors_list (out st') = other_errors_list (out st)
  /\ pkg_crashes (out st') = pkg_crashes (out st)
  /\ trace st' = trace st
  /\ (forall rest,
        for_each (iteration skip bl p) (r :: rest) st = (st', inl (KeyError k)))
  /\ (forall name st0 w1 n pre rest,
        package_show (world st0) name = (w1, inr p) ->
        p_num_resources p = Some n -> (0 < n)%Z ->
        p_resources p = Some (pre ++ r :: rest) ->
        for_each (iteration skip bl p) pre
          (mk_St w1 (out st0) (log st0 ++ [(INFO, MsgStarting name)])
                 (trace st0 ++ [Fetch name (inr p)]))
        = (st, inr tt) ->
        process_dataset skip bl name st0
        = (mk_St (world st)
             (with_pkg_crashes_w_error
                (pkg_crashes_w_error (out st) ++ [(name, KeyError k)])
                (out st'))
             (log st' ++ [(ERROR, MsgPackageError name (KeyError k))])
             (trace st),
           inr tt)).
Proof.
  intros Hk res st'.
  pose proof (classification_key_error_step skip bl p r st k Hk) as H.
  subst st' res.
  destruct (process_resource skip bl p r st) as [s' rr] eqn:Hstep.
  simpl in *. destruct H as (-> & Hke & Hve & Hoe & Hpc & Hpe & _ & Hw & Ht).
  assert (Hiter : iteration skip bl p r st = (s', inl (KeyError k))).
  { unfold iteration, bind. rewrite Hstep. reflexivity. }
  repeat apply conj; try assumption; try reflexivity.
  - intros rest. apply for_each_raise, Hiter.
  - intros name st0 w1 n pre rest Hfetch Hn Hpos Hrs Hpre.
    assert (Hloop : process_resources skip bl p
                      (mk_St w1 (out st0) (log st0 ++ [(INFO, MsgStarting name)])
                             (trace st0 ++ [Fetch name (inr p)]))
                    = (s', inl (KeyError k))).
    { unfold process_resources. rewrite Hn, Hrs. simpl.
      apply Z.ltb_lt in Hpos. rewrite Hpos.
      unfold bind at 1. unfold ret. rewrite for_each_app.
      unfold bind at 1. rewrite Hpre. apply for_each_raise, Hiter. }
    rewrite process_dataset_eq. unfold call_package_show. simpl.
    rewrite Hfetch. unfold with_trace, with_world. simpl. rewrite Hloop.
    unfold dataset_handler, bind, logger, modify. simpl.
    unfold with_out, with_log. simpl. rewrite Hpe, Hw, Ht. reflexivity.
Qed.

(** The inner loop does not package. *)
Lemma iteration_keeps_packages skip bl p r n :
  preserves (fun st => count is_package (trace st) = n) (iteration skip bl p r).
Proof.
  intros st HI. run_step.
  repeat (case_match; simplify_eq/=); rewrite ?count_snoc; simpl; lia.
Qed.

(** C10, as the code has it: for a dataset whose fetch succeeds, packaging
    is invoked exactly once when the inner part raises nothing, and this is
    so whenever the resource count is not positive, since the guard then
    skips the loop only; when the inner part raises, packaging is not
    invoked. *)
Theorem packaging_once_unless_loop_raises skip bl name st w1 p :
  package_show (world st) name = (w1, inr p) ->
  let st1 := mk_St w1 (out st) (log st ++ [(INFO, MsgStarting name)])
                   (trace st ++ [Fetch name (inr p)]) in
  let inner := process_resources skip bl p st1 in
  let st' := fst (process_dataset skip bl name st) in
  (snd inner = inr tt ->
     count is_package (trace st') = count is_package (trace st) + 1
     /\ exists res, trace st' = trace (fst inner) ++ [Package p res])
  /\ (gt0 (p_num_resources p) = false ->
      exists res, trace st' = trace st ++ [Fetch name (inr p); Package p res])
  /\ (forall e, snd inner = inl e ->
        count is_package (trace st') = count is_package (trace st)).
Proof.
  intros Hfetch st1 inner st'.
  assert (Hkeep : count is_package (trace (fst inner))
                  = count is_package (trace st)).
  { apply (process_resources_preserves _ skip bl p
             (fun r => iteration_keeps_packages skip bl p r
                         (count is_package (trace st)))).
    simpl. rewrite count_snoc. simpl. lia. }
  assert (Heq : process_dataset skip bl name st =
                match inner with
                | (st2, inl e) => dataset_handler name e st2
                | (st2, inr _) =>
                    match call_upload_package_zipfile_to_s3 p st2 with
                    | (st3, inl e) => dataset_handler name e st3
                    | (st3, inr _) => (st3, inr tt)
                    end
                end).
  { rewrite process_dataset_eq. unfold call_package_show. simpl.
    rewrite Hfetch. reflexivity. }
  subst st'. rewrite Heq. clear Heq.
  repeat apply conj.
  - intros Hin. destruct inner as [st2 [e|[]]]; simpl in *; [discriminate|].
    unfold call_upload_package_zipfile_to_s3.
    destruct (upload_package_zipfile_to_s3 (world st2) p) as [w3 [e|]];
      simpl; rewrite count_snoc; simpl; (split; [lia|eauto]).
  - intros Hguard. subst inner. unfold process_resources in *.
    rewrite Hguard in *. simpl.
    unfold call_upload_package_zipfile_to_s3. subst st1. simpl.
    destruct (upload_package_zipfile_to_s3 w1 p) as [w3 [e|]]; simpl;
      rewrite <- app_assoc; eauto.
  - intros e Hin. destruct inner as [st2 [e'|[]]]; simpl in *;
      [exact Hkeep|discriminate].
Qed.

End Packaging.

(** ** The run completes and reports every error *)

Section Report.

Context {World : Type} {services : Services World}.

Local Abbreviation M := (@M World).
Implicit Types (st : @St World).














(** The inner loop fetches nothing. *)
Lemma iteration_keeps_fetched skip bl p r l :
  preserves (fun st => fetched_names (trace st) = l) (iteration skip bl p r).
Proof.
  intros st HI. unfold fetched_names in *. run_step.
  repeat (case_match; simplify_eq/=); rewrite ?omap_snoc; simpl;
    rewrite ?app_nil_r; reflexivity.
Qed.

Lemma process_dataset_fetches skip bl name st :
  fetched_names (trace (fst (process_dataset skip bl name st)))
  = fetched_names (trace st) ++ [name].
Proof.
  rewrite process_dataset_eq. unfold call_package_show. simpl.
  destruct (package_show (world st) name) as [w [e|p]]; simpl.
  - unfold fetched_names. rewrite omap_snoc. reflexivity.
  - pose proof (process_resources_preserves _ skip bl p
                  (fun r => iteration_keeps_fetched skip bl p r
                              (fetched_names (trace st) ++ [name]))
                  (with_trace (trace st ++ [Fetch name (inr p)])
                     (with_world w (with_log (log st ++ [(INFO, MsgStarting name)]) st))))
      as H.
    simpl in H. unfold fetched_names at 1 in H. rewrite omap_snoc in H.
    specialize (H eq_refl).
    destruct (process_resources skip bl p _) as [st2 [e|[]]]; simpl in *;
      [exact H|].
    unfold call_upload_package_zipfile_to_s3.
    destruct (upload_package_zipfile_to_s3 (world st2) p) as [w3 [e|]];
      simpl; unfold fetched_names in *; rewrite omap_snoc; simpl;
      rewrite app_nil_r; exact H.
Qed.

Lemma for_each_dataset_fetches skip bl names st :
  fetched_names (trace (fst (for_each (process_dataset skip bl) names st)))
  = fetched_names (trace st) ++ names.
Proof.
  revert st. induction names as [|name names IH]; intros st; simpl.
  - rewrite app_nil_r. reflexivity.
  - unfold bind.
    pose proof (process_dataset_fetches skip bl name st) as H.
    destruct (process_dataset_total skip bl name st) as [[] Ht].
    destruct (process_dataset skip bl name st) as [st' [e|[]]]; simpl in *;
      [discriminate|].
    rewrite IH, H, <- app_assoc. reflexivity.
Qed.

End Report.

Section Completion.

Context {World : Type} {services : Services World}.

Implicit Types (st : @St World).

(** A dataset whose turn returns hands its state to the rest of the run. *)
Lemma migrate_continue skip bl name rest st st' :
  process_dataset skip bl name st = (st', inr tt) ->
  migrate skip bl (name :: rest) st = migrate skip bl rest st'.
Proof.
  intros H. unfold migrate. apply bind_from, for_each_continue, H.
Qed.

(** The run fetches the datasets it is given, in their order. *)
Lemma migrate_fetches skip bl names st :
  fetched_names (trace (fst (migrate skip bl names st)))
  = fetched_names (trace st) ++ names.
Proof.
  unfold migrate, bind.
  pose proof (for_each_dataset_fetches skip bl names st) as Hf.
  destruct (for_each (process_dataset skip bl) names st) as [st1 [e|[]]];
    [exact Hf|].
  rewrite summary_eq. exact Hf.
Qed.

(** C4: a dataset whose fetch fails gets exactly one dataset-level error
    record (its name and the error); nothing else is recorded, no resource
    is processed and nothing is packaged for it, and the outer loop goes on
    with the next dataset: the run from this dataset on is the run over the
    datasets after it, from the state with that one record, and the command
    over a catalogue that lists the dataset is that run; the datasets after
    it are fetched, each in its turn.  Any other error that escapes the body
    of the outer [try] is contained the same way: one dataset-level record,
    and the run goes on with the datasets after it. *)
Theorem fetch_failure_contained skip bl name st :
  (forall w' e,
     package_show (world st) name = (w', inl e) ->
     let st' :=
       mk_St w'
         (with_pkg_crashes_w_error
            (pkg_crashes_w_error (out st) ++ [(name, e)]) (out st))
         (log st ++ [(INFO, MsgStarting name);
                     (ERROR, MsgPackageError name e)])
         (trace st ++ [Fetch name (inl e)]) in
     process_dataset skip bl name st = (st', inr tt)
     /\ (forall rest,
           for_each (process_dataset skip bl) (name :: rest) st
           = for_each (process_dataset skip bl) rest st')
     /\ (forall rest,
           migrate skip bl (name :: rest) st = migrate skip bl rest st')
     /\ (forall args config w0 w1 w2 pre rest,
           skip_existing_s3_upload args = skip ->
           blacklist_of_config config = bl ->
           get_site_user w0 = (w1, None) ->
           package_list w1 = (w2, inr (pre ++ name :: rest)) ->
           for_each (process_dataset skip bl) pre (init w2) = (st, inr tt) ->
           command args config (init w0) = migrate skip bl rest st'
           /\ fetched_names (trace (fst (command args config (init w0))))
              = pre ++ name :: rest))
  /\ snd (process_dataset skip bl name st) = inr tt
  /\ (forall rest,
        migrate skip bl (name :: rest) st
        = migrate skip bl rest (fst (process_dataset skip bl name st)))
  /\ (forall rest,
        fetched_names (trace (fst (migrate skip bl (name :: rest) st)))
        = fetched_names (trace st) ++ name :: rest)
  /\ (let body :=
        dataset_body skip bl name (fst (logger INFO (MsgStarting name) st)) in
      let st' := fst (process_dataset skip bl name st) in
      match snd body with
      | inl e =>
          pkg_crashes_w_error (out st')
          = pkg_crashes_w_error (out st) ++ [(name, e)]
          /\ log st' = log (fst body) ++ [(ERROR, MsgPackageError name e)]
          /\ trace st' = trace (fst body)
      | inr _ =>
          pkg_crashes_w_error (out st') = pkg_crashes_w_error (out st)
          /\ st' = fst body
      end).
Proof.
  repeat apply conj.
  - intros w' e Hfetch st'.
    assert (Hstep : process_dataset skip bl name st = (st', inr tt)).
    { rewrite process_dataset_eq. unfold call_package_show. simpl.
      rewrite Hfetch. unfold dataset_handler, bind, logger, modify. simpl.
      subst st'. rewrite <- app_assoc. reflexivity. }
    split; [exact Hstep|].
    split; [intros rest; apply for_each_continue, Hstep|].
    split; [intros rest; apply migrate_continue, Hstep|].
    intros args config w0 w1 w2 pre rest <- <- Huser Hlist Hpre.
    assert (Hcmd : command args config (init w0)
                   = migrate (skip_existing_s3_upload args)
                       (blacklist_of_config config) rest st').
    { rewrite (command_eq args config w0 w1 w2 _ Huser Hlist).
      unfold migrate. apply bind_from. rewrite for_each_app.
      unfold bind at 1. rewrite Hpre. apply for_each_continue, Hstep. }
    split; [exact Hcmd|].
    rewrite (command_eq args config w0 w1 w2 _ Huser Hlist).
    apply migrate_fetches.
  - destruct (process_dataset_total skip bl name st) as [[] H]. exact H.
  - intros rest. apply migrate_continue.
    destruct (process_dataset_total skip bl name st) as [[] H].
    destruct (process_dataset skip bl name st) as [st' res]. simpl in *.
    rewrite H. reflexivity.
  - intros rest. apply migrate_fetches.
  - intros body st'. subst st'.
    pose proof (dataset_body_keeps_crash_list skip bl name
                  (fst (logger INFO (MsgStarting name) st))) as Hkeep.
    fold body in Hkeep. simpl in Hkeep.
    unfold process_dataset, bind, try_except. simpl.
    simpl in body. fold body.
    destruct body as [st1 [e|[]]]; simpl in *.
    + rewrite Hkeep. repeat split.
    + split; [exact Hkeep|reflexivity].
Qed.

End Completion.

(** ** The extensions seen *)

Section Extensions.

Context {World : Type} {services : Services World}.

Implicit Types (st : @St World).

Ltac old_visit HI :=
  let r' := fresh "r'" in
  let Hr' := fresh "Hr'" in
  let e' := fresh "e'" in
  intros r' Hr'; destruct (HI r' Hr') as [?|(e' & ? & ?)];
  [left; assumption|right; exists e'; split; [assumption|set_solver]].

Lemma iteration_extensions_recorded skip bl p r :
  preserves (extensions_recorded skip) (iteration skip bl p r).
Proof.
  intros st HI. unfold extensions_recorded, visited_resources in *. run_step.
  repeat (case_match; simplify_eq/=); try exact HI;
    rewrite ?omap_snoc; simpl; rewrite ?app_nil_r; try (old_visit HI).
  all: intros r' [Hr'|Hr']%elem_of_app;
    [ revert r' Hr'; old_visit HI
    | apply list_elem_of_singleton in Hr'; subst r' ].
  all: try (left; split; [reflexivity|];
            match goal with
            | H : bool_decide _ = true |- _ =>
                apply bool_decide_eq_true in H; congruence
            end).
  all: right; unfold extension_of;
    match goal with H : r_format _ = _ |- _ => rewrite H end;
    eexists; split; [reflexivity|set_solver].
Qed.

Lemma process_dataset_extensions_recorded skip bl name :
  preserves (extensions_recorded skip) (process_dataset skip bl name).
Proof.
  apply (process_dataset_preserves (extensions_recorded skip) (fun _ => True)).
  - intros st HI. exact HI.
  - intros st HI. unfold call_package_show.
    destruct (package_show (world st) name) as [w [e|p]];
      unfold extensions_recorded, visited_resources in *; simpl;
      rewrite omap_snoc; simpl; rewrite app_nil_r; auto.
  - intros p r _. apply iteration_extensions_recorded.
  - intros p st HI. unfold call_upload_package_zipfile_to_s3.
    destruct (upload_package_zipfile_to_s3 (world st) p) as [w [e|]];
      unfold extensions_recorded, visited_resources in *; simpl;
      rewrite omap_snoc; simpl; rewrite app_nil_r; auto.
  - intros e st HI. exact HI.
Qed.

(** What the code does keep of C1: at the end of a run the extension of
    every visited resource has been seen, except for the resources skipped
    as already on S3; in a forced run there is no exception. *)
Lemma unskipped_extensions_seen args config (w : World) r :
  let st := fst (command args config (init w)) in
  r ∈ visited_resources (trace st) ->
  (skip_existing_s3_upload args = true /\ r_url_type r = Some (VStr "s3"))
  \/ exists e, extension_of r = Some e /\ e ∈ extensions_seen (out st).
Proof.
  intros st. revert r.
  apply (command_preserves
           (extensions_recorded (skip_existing_s3_upload args))
           (fun _ => True)).
  - intros w' st' HI. exact HI.
  - intros name. apply process_dataset_extensions_recorded.
  - intros st' HI. rewrite summary_eq. exact HI.
  - intros r Hr. apply elem_of_nil in Hr. contradiction.
Qed.

End Extensions.

(** ** The example catalogues, run *)

Ltac has_id :=
  let H := fresh in
  intros ? ? ? ? H; simpl in H;
  repeat (case_bool_decide; simplify_eq/=); eexists; reflexivity.

(** C1, on the code: in a run that is not forced, a resource that is already
    on S3 is visited and skipped before its extension is recorded (the
    [continue] of line 86 comes before line 89), so that the set of
    extensions seen misses it. *)
Theorem skipped_resource_extension_not_seen :
  let st := fst (command (services := on_s3_only) [] None (init tt)) in
  visited_resources (trace st) = [r_csv_on_s3]
  /\ extension_of r_csv_on_s3 = Some "csv"
  /\ already_on_s3 (out st) = [VStr "r1"]
  /\ extensions_seen (out st) = ∅.
Proof. vm_compute. repeat split. Qed.

Lemma buckets_partition_visited_witness :
  packages_have_id demo
  /\ get_site_user (Services := demo) 0 = (0, None)
  /\ package_list (Services := demo) 0 = (0, inr ["d1"; "d2"; "d3"; "d4"])
  /\ (let st := fst (command (services := demo) [] (Some "ZIP exe") (init 0)) in
      skipped st + excluded st + migrated st + failed st = visited st
      /\ visited st = 4
      /\ skipped st + excluded st + migrated st + failed st
         <= reached (services := demo) true ["zip"; "exe"]
              ["d1"; "d2"; "d3"; "d4"] (init 0)
      /\ reached (services := demo) true ["zip"; "exe"]
           ["d1"; "d2"; "d3"; "d4"] (init 0) = 5).
Proof.
  assert (Hid : packages_have_id demo) by has_id.
  destruct (buckets_partition_visited (services := demo)
              [] (Some "ZIP exe") 0) as (Heq & _ & _ & Hle).
  split; [exact Hid|].
  split; [reflexivity|].
  split; [reflexivity|].
  split; [exact (Heq Hid)|].
  split; [vm_compute; reflexivity|].
  split; [exact (Hle 0 0 ["d1"; "d2"; "d3"; "d4"] eq_refl eq_refl)|].
  vm_compute. reflexivity.
Defined.

(** C2, as stated, fails on the code: over this catalogue three resources
    are reached by the inner loop, none has its turn run to its end, and
    the four buckets hold one resource. *)
Lemma buckets_miss_aborted_turns :
  let st := fst (command (services := untidy) [] None (init tt)) in
  skipped st + excluded st + migrated st + failed st = 1
  /\ visited st = 0
  /\ reached (services := untidy) true [] ["d7"; "d8"; "d4"] (init tt) = 3.
Proof. vm_compute. repeat split. Qed.


Lemma fetch_failure_contained_witness :
  let st := fst (for_each (process_dataset (services := demo) true ["zip"; "exe"])
                   ["d1"] (init 0)) in
  package_show (Services := demo) (world st) "d2"
  = (1, inl (OtherException "NotFound"))
  /\ skip_existing_s3_upload [] = true
  /\ blacklist_of_config (Some "ZIP exe") = ["zip"; "exe"]
  /\ get_site_user (Services := demo) 0 = (0, None)
  /\ package_list (Services := demo) 0 = (0, inr (["d1"] ++ "d2" :: ["d3"; "d4"]))
  /\ for_each (process_dataset (services := demo) true ["zip"; "exe"])
       ["d1"] (init 0) = (st, inr tt)
  /\ (let res := process_dataset (services := demo) true ["zip"; "exe"] "d2" st in
      snd res = inr tt
      /\ pkg_crashes_w_error (out (fst res))
         = [("d2", OtherException "NotFound")]
      /\ trace (fst res) = trace st ++ [Fetch "d2" (inl (OtherException "NotFound"))])
  /\ (let res := command (services := demo) [] (Some "ZIP exe") (init 0) in
      fetched_names (trace (fst res)) = ["d1"; "d2"; "d3"; "d4"]
      /\ count is_package (trace (fst res)) = 2
      /\ pkg_crashes_w_error (out (fst res))
         = [("d2", OtherException "NotFound"); ("d4", KeyError "format")]).
Proof.
  intros st.
  assert (Hfetch : package_show (Services := demo) (world st) "d2"
                   = (1, inl (OtherException "NotFound")))
    by (vm_compute; reflexivity).
  assert (Hbl : blacklist_of_config (Some "ZIP exe") = ["zip"; "exe"])
    by (vm_compute; reflexivity).
  assert (Hpre : for_each (process_dataset (services := demo) true ["zip"; "exe"])
                   ["d1"] (init 0) = (st, inr tt))
    by (vm_compute; reflexivity).
  destruct (proj1 (fetch_failure_contained (services := demo)
                     true ["zip"; "exe"] "d2" st)
              1 (OtherException "NotFound") Hfetch)
    as (Hstep & _ & _ & Hcmd).
  destruct (Hcmd [] (Some "ZIP exe") 0 0 0 ["d1"] ["d3"; "d4"]
              eq_refl Hbl eq_refl eq_refl Hpre) as (Hrun & Hnames).
  split; [exact Hfetch|].
  split; [reflexivity|].
  split; [exact Hbl|].
  split; [reflexivity|].
  split; [reflexivity|].
  split; [exact Hpre|].
  split.
  - cbv zeta. rewrite Hstep. vm_compute. repeat split.
  - cbv zeta. split; [exact Hnames|].
    vm_compute. repeat split.
Defined.

Lemma force_mode_skips_nothing_witness :
  skip_existing_s3_upload ["force_s3"] = false
  /\ (let st := fst (command (services := on_s3_only) ["force_s3"] None (init tt)) in
      visited_resources (trace st) = [r_csv_on_s3]
      /\ r_url_type r_csv_on_s3 = Some (VStr "s3")
      /\ already_on_s3 (out st) = []).
Proof.
  split; [reflexivity|].
  split; [vm_compute; reflexivity|].
  split; [reflexivity|].
  exact (proj1 (force_mode_skips_nothing (services := on_s3_only)
                  ["force_s3"] None tt eq_refl)).
Defined.

Lemma excluded_never_migrated_witness :
  not_skipped true r_zip
  /\ r_format r_zip = Some (VStr "Zip")
  /\ (lower "Zip" ∈ ["zip"])
  /\ r_id r_zip = Some (VStr "r2")
  /\ (let res := process_resource (services := demo) true ["zip"] d1 r_zip (init 0) in
      snd res = inr tt
      /\ trace (fst res) = []
      /\ blacklisted (out (fst res)) = [mk_blacklisted (VStr "r2") "zip"]).
Proof.
  assert (H1 : not_skipped true r_zip).
  { right. exists VNone. split; [reflexivity|discriminate]. }
  assert (H3 : lower "Zip" ∈ ["zip"]).
  { apply list_elem_of_singleton. reflexivity. }
  destruct (excluded_never_migrated (services := demo)
              true ["zip"] d1 r_zip (init 0) "Zip" (VStr "r2")
              H1 eq_refl H3 eq_refl)
    as (Hres & Htr & _ & Hbl & _).
  split; [exact H1|].
  split; [reflexivity|].
  split; [exact H3|].
  split; [reflexivity|].
  cbv zeta. split; [exact Hres|]. split; [exact Htr|]. exact Hbl.
Defined.

Lemma exclusion_set_from_config_witness :
  is_token "Zip"
  /\ is_space " " = true
  /\ split "Zip EXE" = ["Zip"; "EXE"]
  /\ lower "ZIP" ∈ blacklist_of_config (Some "Zip EXE").
Proof.
  assert (Htok : is_token "Zip") by (split; [discriminate|reflexivity]).
  destruct exclusion_set_from_config
    as (_ & _ & _ & Hcons & Hone & _ & _ & Hin & _).
  split; [exact Htok|].
  split; [reflexivity|].
  split.
  - change "Zip EXE" with (String.append "Zip" (String " " "EXE")).
    rewrite (Hcons "Zip" " "%char "EXE" Htok eq_refl).
    rewrite (Hone "EXE"); [reflexivity|split; [discriminate|reflexivity]].
  - apply Hin. exists "Zip". split; [|reflexivity].
    vm_compute. constructor.
Defined.

Lemma classification_key_error_aborts_dataset_witness :
  classification_key_error true [] r_no_format = Some "format"
  /\ (let res := process_dataset (services := malformed_only) true [] "d4" (init tt) in
      snd res = inr tt
      /\ key_errors (out (fst res)) = 0
      /\ pkg_crashes_w_error (out (fst res)) = [("d4", KeyError "format")]
      /\ trace (fst res) = [Fetch "d4" (inr d_malformed)]).
Proof.
  split; [reflexivity|].
  destruct (classification_key_error_aborts_dataset
              (services := malformed_only) true [] d_malformed r_no_format
              (mk_St tt empty_outcome [(INFO, MsgStarting "d4")]
                     [Fetch "d4" (inr d_malformed)])
              "format" eq_refl)
    as (_ & _ & _ & _ & _ & _ & _ & Hds).
  rewrite (Hds "d4" (init tt) tt 2%Z [] [r_pdf] eq_refl eq_refl eq_refl
             eq_refl eq_refl).
  repeat split.
Defined.

(** C10, as stated, fails on the code: the dataset is fetched, a resource
    without ['format'] raises out of the inner loop, and the dataset is not
    packaged. *)
Lemma fetched_dataset_not_packaged :
  let st := fst (command (services := malformed_only) [] None (init tt)) in
  trace st = [Fetch "d4" (inr d_malformed)]
  /\ count (is_package_of d_malformed) (trace st) = 0
  /\ pkg_crashes_w_error (out st) = [("d4", KeyError "format")].
Proof. vm_compute. repeat split. Qed.

Lemma packaging_once_unless_loop_raises_witness :
  package_show (Services := demo) 0 "d3" = (0, inr d_empty)
  /\ p_num_resources d_empty = Some 0%Z
  /\ (let st := fst (process_dataset (services := demo) true [] "d3" (init 0)) in
      count is_package (trace st) = 1).
Proof.
  split; [reflexivity|].
  split; [reflexivity|].
  destruct (packaging_once_unless_loop_raises (services := demo)
              true [] "d3" (init 0) 0 d_empty eq_refl) as (Honce & _).
  exact (proj1 (Honce eq_refl)).
Defined.

(** * Further properties of the command *)

(** ** Before the loop *)

Section Listing.

Context {World : Type} {services : Services World}.

Implicit Types (st : @St World).

(** X1: the two calls that come before the loop are outside both [try]
    blocks: when [get_site_user] raises, the command raises that error
    without listing the catalogue; when [package_list] raises, the command
    raises that error; in both cases nothing is logged, no dataset is
    fetched and there is no report. *)
Theorem listing_failure_is_fatal args config (w0 w1 : World) e :
  (get_site_user w0 = (w1, Some e) ->
   command args config (init w0) = (init w1, inl e))
  /\ (forall w2,
        get_site_user w0 = (w1, None) ->
        package_list w1 = (w2, inl e) ->
        command args config (init w0) = (init w2, inl e)).
Proof.
  split.
  - intros Huser. unfold command, bind, call_get_site_user. simpl.
    rewrite Huser. reflexivity.
  - intros w2 Huser Hlist.
    unfold command, bind, call_get_site_user, call_package_list. simpl.
    rewrite Huser. simpl. rewrite Hlist. reflexivity.
Qed.

(** X2: over a catalogue without datasets the command calls no further
    service and logs the report of the empty accumulators, nothing else. *)
Theorem empty_catalogue_reports_zeros args config (w0 w1 w2 : World) :
  get_site_user w0 = (w1, None) ->
  package_list w1 = (w2, inr []) ->
  command args config (init w0)
  = (mk_St w2 empty_outcome (summary_lines empty_outcome) [], inr tt).
Proof.
  intros Huser Hlist. rewrite (command_eq args config w0 w1 w2 [] Huser Hlist).
  unfold migrate, bind. simpl. rewrite summary_eq. reflexivity.
Qed.

(** X3: the command looks at its first argument only, and compares it with
    ['force_s3'] as it is written: any other first argument, whatever
    follows it, gives the run without arguments, and ['force_s3'] followed
    by anything gives the forced run. *)
Theorem only_first_argument_counts config st :
  (forall rest,
     command ("force_s3" :: rest) config st = command ["force_s3"] config st)
  /\ (forall a rest,
        a <> "force_s3" ->
        command (a :: rest) config st = command [] config st).
Proof.
  split.
  - intros rest. reflexivity.
  - intros a rest Ha. unfold command. simpl.
    rewrite (bool_decide_eq_false_2 _ Ha). reflexivity.
Qed.

End Listing.

(** ** The other turns of the inner loop *)

Section Steps.

Context {World : Type} {services : Services World}.

Implicit Types (st : @St World).

Ltac classify Hns :=
  run_step;
  destruct Hns as [->|(?u & ?Hu & ?Hne)];
  repeat (case_match; simplify_eq/=);
  rewrite <- ?app_assoc; try reflexivity;
  try match goal with
      | H : bool_decide _ = false |- _ =>
          apply bool_decide_eq_false in H; contradiction
      | H : bool_decide _ = true |- _ =>
          apply bool_decide_eq_true in H; contradiction
      end.

(** X4: a resource past the skip check whose extension is not excluded and
    whose update succeeds is counted as eligible, its extension is seen, the
    two lines are logged, and no error counter, list or set changes; the
    ['id'] of the resource and of the package are not read. *)
Theorem successful_migration_step skip bl p r st f w' :
  not_skipped skip r ->
  r_format r = Some (VStr f) ->
  lower f ∉ bl ->
  resource_update (world st) r = (w', None) ->
  process_resource skip bl p r st
  = (mk_St w'
       (with_not_blacklisted (not_blacklisted (out st) + 1)
          (with_extensions_seen (extensions_seen (out st) ∪ {[lower f]})
             (out st)))
       (log st ++ [(INFO, MsgAttempting (resource_name r));
                   (INFO, MsgSuccess (resource_name r))])
       (trace st ++ [Migrate r None]),
     inr tt).
Proof. intros Hns Hf Hbl Hup. classify Hns. Qed.

(** X5: in a run that is not forced, a resource whose ['url_type'] is
    ['s3'] has its id appended to [already_on_s3] and one line logged;
    nothing else changes and no service is called.  Its ['format'] is not
    read: the resource is skipped even when it has none, or one that is
    excluded. *)
Theorem already_on_s3_step bl p r st i :
  r_url_type r = Some (VStr "s3") ->
  r_id r = Some i ->
  process_resource true bl p r st
  = (mk_St (world st)
       (with_already_on_s3 (already_on_s3 (out st) ++ [i]) (out st))
       (log st ++ [(INFO, MsgAlreadyOnS3 (resource_name r))])
       (trace st),
     inr tt).
Proof. intros Hu Hi. run_step. rewrite Hu, Hi. reflexivity. Qed.

(** X6: a ['format'] that is [None] makes [.lower()] raise
    [AttributeError]: the turn of the loop raises before anything is
    recorded or logged, the rest of the resources is not processed, and the
    error is not one of the three resource-level kinds. *)
Theorem null_format_aborts_loop skip bl p r st rest :
  not_skipped skip r ->
  r_format r = Some VNone ->
  let e := AttributeError "'NoneType' object has no attribute 'lower'" in
  process_resource skip bl p r st = (st, inl e)
  /\ for_each (iteration skip bl p) (r :: rest) st = (st, inl e).
Proof.
  intros Hns Hf e.
  assert (Hstep : process_resource skip bl p r st = (st, inl e)).
  { subst e. classify Hns; destruct st; reflexivity. }
  split; [exact Hstep|].
  apply for_each_raise. unfold iteration, bind. rewrite Hstep. reflexivity.
Qed.

(** X7: when the update of a resource fails and the package has no ['id'],
    the handler itself raises [KeyError]: the failure is logged, a
    validation or key error is counted, but an error of another kind is not
    appended to [other_errors_list], and [pkg_crashes] stays as it was. *)
Theorem handler_without_package_id skip bl p r st f w' e :
  not_skipped skip r ->
  r_format r = Some (VStr f) ->
  lower f ∉ bl ->
  p_id p = None ->
  resource_update (world st) r = (w', Some e) ->
  let o := with_not_blacklisted (not_blacklisted (out st) + 1)
             (with_extensions_seen (extensions_seen (out st) ∪ {[lower f]})
                (out st)) in
  process_resource skip bl p r st
  = (mk_St w'
       match e with
       | ValidationError _ =>
           with_validation_errors (validation_errors o + 1) o
       | KeyError _ => with_key_errors (key_errors o + 1) o
       | _ => o
       end
       (log st ++ [(INFO, MsgAttempting (resource_name r));
                   (ERROR, migration_error_message r e)])
       (trace st ++ [Migrate r (Some e)]),
     inl (KeyError "id")).
Proof. intros Hns Hf Hbl Hid Hup o. subst o. classify Hns. Qed.

End Steps.

(** ** Packaging failures and packages without resources *)

Section Archive.

Context {World : Type} {services : Services World}.

Implicit Types (st : @St World).

(** X8: when the packaging of a dataset raises after its resources were
    processed, the error is logged and recorded as a dataset-level error
    under the dataset's name; everything the inner loop recorded stays
    (nothing is rolled back), and the package id is not added to
    [pkg_crashes]. *)
Theorem packaging_failure_recorded skip bl name st w1 p w3 e :
  package_show (world st) name = (w1, inr p) ->
  let st1 := mk_St w1 (out st) (log st ++ [(INFO, MsgStarting name)])
                   (trace st ++ [Fetch name (inr p)]) in
  let inner := process_resources skip bl p st1 in
  snd inner = inr tt ->
  upload_package_zipfile_to_s3 (world (fst inner)) p = (w3, Some e) ->
  process_dataset skip bl name st
  = (mk_St w3
       (with_pkg_crashes_w_error
          (pkg_crashes_w_error (out (fst inner)) ++ [(name, e)])
          (out (fst inner)))
       (log (fst inner) ++ [(ERROR, MsgPackageError name e)])
       (trace (fst inner) ++ [Package p (Some e)]),
     inr tt).
Proof.
  intros Hfetch st1 inner Hin Hup.
  rewrite process_dataset_eq. unfold call_package_show. simpl.
  rewrite Hfetch. unfold with_trace, with_world. simpl.
  fold st1. fold inner.
  destruct inner as [st2 [e'|[]]]; simpl in *; [discriminate|].
  unfold call_upload_package_zipfile_to_s3. rewrite Hup. reflexivity.
Qed.

(** X9: a package whose resource count is positive but which has no
    ['resources'] makes the [for] statement raise [TypeError]: the dataset
    gets one dataset-level error record and is not packaged. *)
Theorem missing_resources_abort_dataset skip bl name st w1 p n :
  package_show (world st) name = (w1, inr p) ->
  p_num_resources p = Some n -> (0 < n)%Z ->
  p_resources p = None ->
  let e := TypeError "'NoneType' object is not iterable" in
  process_dataset skip bl name st
  = (mk_St w1
       (with_pkg_crashes_w_error
          (pkg_crashes_w_error (out st) ++ [(name, e)]) (out st))
       (log st ++ [(INFO, MsgStarting name); (ERROR, MsgPackageError name e)])
       (trace st ++ [Fetch name (inr p)]),
     inr tt).
Proof.
  intros Hfetch Hn Hpos Hrs e.
  rewrite process_dataset_eq. unfold call_package_show. simpl.
  rewrite Hfetch. unfold process_resources. rewrite Hn, Hrs. simpl.
  apply Z.ltb_lt in Hpos. rewrite Hpos. simpl.
  unfold dataset_handler, bind, logger, modify. simpl.
  rewrite <- app_assoc. reflexivity.
Qed.

End Archive.

(** ** What the accumulators hold at the end of a run *)

Section Accounts.

Context {World : Type} {services : Services World}.

Local Abbreviation M := (@M World).
Implicit Types (st : @St World).

Ltac calls :=
  unfold counters_match_calls in *; simpl in *;
  rewrite ?count_snoc in *; simpl in *.

Lemma iteration_counters_match skip bl p r :
  preserves counters_match_calls (iteration skip bl p r).
Proof.
  intros st (Hn & Hv & Hk). calls. run_step.
  repeat (case_match; simplify_eq/=); calls; repeat split; lia.
Qed.

Lemma process_dataset_counters_match skip bl name :
  preserves counters_match_calls (process_dataset skip bl name).
Proof.
  apply (process_dataset_preserves counters_match_calls (fun _ => True)).
  - intros st HI. exact HI.
  - intros st (Hn & Hv & Hk). unfold call_package_show.
    destruct (package_show (world st) name) as [w [e|p]]; calls;
      repeat split; lia.
  - intros p r _. apply iteration_counters_match.
  - intros p st (Hn & Hv & Hk). unfold call_upload_package_zipfile_to_s3.
    destruct (upload_package_zipfile_to_s3 (world st) p) as [w [e|]]; calls;
      repeat split; lia.
  - intros e st HI. exact HI.
Qed.

Lemma count_migrate_calls (t : list event) :
  count is_migrate_call t = count is_migrated t + count is_failed_call t.
Proof.
  induction t as [|ev t IH]; [reflexivity|].
  unfold count in *. simpl.
  destruct ev as [| r [e|] | |]; simpl; lia.
Qed.

(** X10: at the end of a run, [not_blacklisted] is the number of calls of
    [change_to_s3], those that raised included; [validation_errors] and
    [key_errors] are the numbers of calls that raised [ValidationError] and
    [KeyError]; so the count reported as not blacklisted is the number of
    resources migrated plus the number of failed migrations. *)
Theorem counters_count_the_calls args config (w : World) :
  let st := fst (command args config (init w)) in
  not_blacklisted (out st) = count is_migrate_call (trace st)
  /\ validation_errors (out st) = count is_validation_failure (trace st)
  /\ key_errors (out st) = count is_key_failure (trace st)
  /\ not_blacklisted (out st) = migrated st + count is_failed_call (trace st).
Proof.
  intros st.
  assert (counters_match_calls st) as (Hn & Hv & Hk).
  { apply (command_preserves counters_match_calls (fun _ => True)).
    - intros w' st' HI. exact HI.
    - intros name. apply process_dataset_counters_match.
    - intros st' HI. rewrite summary_eq. exact HI.
    - repeat split. }
  repeat split; try assumption.
  rewrite Hn. unfold migrated. apply count_migrate_calls.
Qed.

Ltac visits :=
  unfold lists_match_visits, visited_resources in *; simpl in *;
  rewrite ?omap_snoc in *; simpl in *; rewrite ?app_nil_r in *.

Lemma iteration_lists_match skip bl p r :
  preserves (lists_match_visits skip bl) (iteration skip bl p r).
Proof.
  intros st (Ha & Hb). visits. run_step.
  repeat (case_match; simplify_eq/=); visits; try (split; assumption);
    rewrite <- ?Ha, <- ?Hb; clear Ha Hb;
    unfold skipped_id, excluded_entry, is_on_s3, extension_of;
    repeat match goal with
           | H : r_url_type _ = _ |- _ => rewrite H
           | H : r_format _ = _ |- _ => rewrite H
           | H : r_id _ = _ |- _ => rewrite H
           end; simpl;
    repeat (case_bool_decide; simplify_eq/=);
    rewrite ?app_nil_r;
    try (split; congruence).
  all: destruct (r_id r); simpl; rewrite ?app_nil_r; split; reflexivity.
Qed.

Lemma process_dataset_lists_match skip bl name :
  preserves (lists_match_visits skip bl) (process_dataset skip bl name).
Proof.
  apply (process_dataset_preserves (lists_match_visits skip bl) (fun _ => True)).
  - intros st HI. exact HI.
  - intros st (Ha & Hb). unfold call_package_show.
    destruct (package_show (world st) name) as [w [e|p]]; visits;
      repeat split; assumption.
  - intros p r _. apply iteration_lists_match.
  - intros p st (Ha & Hb). unfold call_upload_package_zipfile_to_s3.
    destruct (upload_package_zipfile_to_s3 (world st) p) as [w [e|]]; visits;
      repeat split; assumption.
  - intros e st HI. exact HI.
Qed.

(** X11: at the end of a run, [already_on_s3] holds the ids of the visited
    resources that were on S3, and [blacklisted] the id and extension of the
    visited resources that were not on S3 and had an excluded extension,
    each list in the order of the visits and with one entry per visit. *)
Theorem lists_hold_the_visits args config (w : World) :
  let st := fst (command args config (init w)) in
  let skip := skip_existing_s3_upload args in
  let bl := blacklist_of_config config in
  already_on_s3 (out st)
  = omap (skipped_id skip) (visited_resources (trace st))
  /\ blacklisted (out st)
     = omap (excluded_entry skip bl) (visited_resources (trace st)).
Proof.
  intros st skip bl.
  apply (command_preserves (lists_match_visits skip bl) (fun _ => True)).
  - intros w' st' HI. exact HI.
  - intros name. apply process_dataset_lists_match.
  - intros st' HI. rewrite summary_eq. exact HI.
  - split; reflexivity.
Qed.

Ltac grows :=
  unfold extends in *; simpl in *;
  repeat match goal with H : _ /\ _ |- _ => destruct H end;
  repeat split;
  first [ assumption | lia | solve [repeat apply prefix_app_r; assumption]
        | set_solver ].

Lemma extends_refl st : extends st st.
Proof. unfold extends. repeat split; (reflexivity || lia || set_solver). Qed.

Lemma iteration_extends st0 skip bl p r :
  preserves (extends st0) (iteration skip bl p r).
Proof.
  intros st HI. run_step.
  repeat (case_match; simplify_eq/=); grows.
Qed.

Lemma process_dataset_extends st0 skip bl name :
  preserves (extends st0) (process_dataset skip bl name).
Proof.
  apply (process_dataset_preserves (extends st0) (fun _ => True)).
  - intros st HI. grows.
  - intros st HI. unfold call_package_show.
    destruct (package_show (world st) name) as [w [e|p]]; simpl;
      [|split; [|exact I]]; grows.
  - intros p r _. apply iteration_extends.
  - intros p st HI. unfold call_upload_package_zipfile_to_s3.
    destruct (upload_package_zipfile_to_s3 (world st) p) as [w [e|]]; simpl;
      grows.
  - intros e st HI. grows.
Qed.

(** X12: from any state, the command only adds to what is recorded: the
    three counters do not decrease, the lists, the log and the trace are
    extended at their end, and the two sets grow; a dataset that fails
    takes back nothing recorded before it or for its earlier resources. *)
Theorem command_only_adds args config st :
  extends st (fst (command args config st))
  /\ (forall skip bl name, extends st (fst (process_dataset skip bl name st))).
Proof.
  split.
  - apply (command_preserves (extends st) (fun _ => True)).
    + intros w' st' HI. grows.
    + intros name. apply process_dataset_extends.
    + intros st' HI. rewrite summary_eq. grows.
    + apply extends_refl.
  - intros skip bl name. apply process_dataset_extends, extends_refl.
Qed.

End Accounts.

(** ** Where the migrated resources and the recorded ids come from *)

Lemma fetched_app p (t t' : list event) : fetched p t -> fetched p (t ++ t').
Proof. intros [n H]. exists n. apply elem_of_app. left. exact H. Qed.

Lemma of_fetched_app r (t t' : list event) :
  of_fetched_package r t -> of_fetched_package r (t ++ t').
Proof.
  intros (p & rs & Hp & Hrs & Hr). exists p, rs.
  split; [apply fetched_app, Hp|]. split; assumption.
Qed.

Lemma from_fetched_app (t t' : list event) ev :
  from_fetched t ev -> from_fetched (t ++ t') ev.
Proof.
  destruct ev as [n res|r res|p res|p r]; simpl; try tauto.
  - apply of_fetched_app.
  - intros [Hp Hr]. split; [apply fetched_app, Hp|exact Hr].
Qed.

Lemma all_from_fetched_app (t t' l : list event) :
  Forall (from_fetched t) l -> Forall (from_fetched (t ++ t')) l.
Proof.
  intros H. eapply Forall_impl; [exact H|].
  intros ev. apply from_fetched_app.
Qed.

Lemma size_add_le (X : gset value) i : size (X ∪ {[i]}) <= size X + 1.
Proof.
  rewrite size_union_alt.
  pose proof (subseteq_size (({[i]} : gset value) ∖ X) {[i]}) as Hle.
  rewrite size_singleton in Hle.
  assert (({[i]} : gset value) ∖ X ⊆ {[i]}) as Hsub.
  { intros x Hx. apply elem_of_difference in Hx as [Hx _]. exact Hx. }
  specialize (Hle Hsub). lia.
Qed.

Section Origins.

Context {World : Type} {services : Services World}.

Local Abbreviation M := (@M World).
Implicit Types (st : @St World) (I : @St World -> Prop).

Lemma for_each_preserves_in {A} I (body : A -> M unit) (l : list A) :
  (forall x, x ∈ l -> preserves I (body x)) -> preserves I (for_each body l).
Proof.
  induction l as [|x l IH]; intros Hbody st HI; simpl.
  - exact HI.
  - unfold bind.
    assert (Hx := Hbody x (list_elem_of_here x l) st HI).
    destruct (body x st) as [st' [e|[]]]; simpl in *; [exact Hx|].
    apply IH; [|exact Hx].
    intros y Hy. apply Hbody. apply list_elem_of_further, Hy.
Qed.

Lemma process_dataset_preserves_fetched I skip bl name :
  preserves I (logger INFO (MsgStarting name) : M unit) ->
  (forall st, I st ->
     match call_package_show name st with
     | (st1, inl e) => I (fst (dataset_handler name e st1))
     | (st1, inr p) => I st1 /\ fetched p (trace st1)
     end) ->
  (forall p rs r, p_resources p = Some rs -> r ∈ rs ->
     preserves (fun st => I st /\ fetched p (trace st))
               (iteration skip bl p r)) ->
  (forall p st, I st ->
     match call_upload_package_zipfile_to_s3 p st with
     | (st3, inl e) => I (fst (dataset_handler name e st3))
     | (st3, inr _) => I st3
     end) ->
  (forall e, preserves I (dataset_handler name e : M unit)) ->
  preserves I (process_dataset skip bl name).
Proof.
  intros Hstart Hfetch Hiter Hpack Hcrash st HI.
  rewrite process_dataset_eq.
  specialize (Hfetch _ (Hstart st HI)).
  destruct (call_package_show name _) as [st1 [e|p]]; [exact Hfetch|].
  assert (HI2 : I (fst (process_resources skip bl p st1))).
  { unfold process_resources. destruct (gt0 (p_num_resources p)); [|tauto].
    unfold bind, iter. destruct (p_resources p) as [rs|] eqn:Hrs; simpl;
      [|tauto].
    apply (for_each_preserves_in (fun st => I st /\ fetched p (trace st))
             (iteration skip bl p) rs); [|exact Hfetch].
    intros r Hr. apply (Hiter p rs r Hrs Hr). }
  destruct (process_resources skip bl p st1) as [st2 [e|[]]]; simpl in HI2.
  - apply Hcrash, HI2.
  - specialize (Hpack p st2 HI2).
    destruct (call_upload_package_zipfile_to_s3 p st2) as [st3 [e|[]]];
      exact Hpack.
Qed.

Ltac origin :=
  rewrite ?Forall_app; repeat split;
  first [ assumption
        | solve [repeat apply all_from_fetched_app; assumption]
        | solve [repeat apply fetched_app; assumption]
        | idtac ].

Lemma iteration_only_fetched skip bl p rs r :
  p_resources p = Some rs -> r ∈ rs ->
  preserves (fun st => only_fetched_resources st /\ fetched p (trace st))
            (iteration skip bl p r).
Proof.
  intros Hrs Hr st [HI Hp]. unfold only_fetched_resources in *. run_step.
  repeat (case_match; simplify_eq/=); origin.
  all: repeat constructor; simpl.
  all: try (exists p, rs; repeat split; try assumption; repeat apply fetched_app; assumption).
  all: try solve [repeat apply fetched_app; assumption].
  all: try (exists rs; split; assumption).
Qed.

Lemma iteration_crashes_fetched skip bl p rs r :
  p_resources p = Some rs -> r ∈ rs ->
  preserves (fun st => crashes_are_fetched st /\ fetched p (trace st))
            (iteration skip bl p r).
Proof.
  intros Hrs Hr st [[HI Hsz] Hp]. unfold crashes_are_fetched in *. run_step.
  repeat (case_match; simplify_eq/=); rewrite ?count_snoc; simpl;
    repeat split;
    try solve [repeat apply fetched_app; assumption];
    try lia;
    try match goal with
        | |- size (?X ∪ {[?i]}) <= _ => pose proof (size_add_le X i); lia
        end;
    try (intros i' Hi'; destruct (HI i' Hi') as (p' & Hp' & Hid');
         exists p'; split; [repeat apply fetched_app|]; assumption).
  all: intros i' Hi'; apply elem_of_union in Hi' as [Hi'|Hi'];
    [ destruct (HI i' Hi') as (p' & Hp' & Hid');
      exists p'; split; [repeat apply fetched_app|]; assumption
    | apply elem_of_singleton in Hi'; subst i';
      exists p; split; [repeat apply fetched_app|]; assumption ].
Qed.

Lemma iteration_extensions_lowered skip bl p rs r :
  p_resources p = Some rs -> r ∈ rs ->
  preserves (fun st => extensions_are_lowered_formats st
                       /\ fetched p (trace st))
            (iteration skip bl p r).
Proof.
  intros Hrs Hr st [HI Hp]. unfold extensions_are_lowered_formats in *.
  run_step.
  repeat (case_match; simplify_eq/=);
    (split; [|solve [repeat apply fetched_app; assumption]]);
    try (intros e' He'; destruct (HI e' He') as (Hlow & r' & Hr' & He'');
         split; [exact Hlow|];
         exists r'; split; [repeat apply of_fetched_app|]; assumption).
  all: intros e' He'; apply elem_of_union in He' as [He'|He'];
    [ destruct (HI e' He') as (Hlow & r' & Hr' & He'');
      split; [exact Hlow|];
      exists r'; split; [repeat apply of_fetched_app|]; assumption
    | apply elem_of_singleton in He'; subst e';
      split; [apply lower_idemp|];
      exists r; split;
      [ exists p, rs; repeat split; try assumption;
        repeat apply fetched_app; assumption
      | unfold extension_of;
        match goal with H : r_format _ = _ |- _ => rewrite H end;
        reflexivity ] ].
Qed.

Ltac fetch_step :=
  unfold call_package_show, call_upload_package_zipfile_to_s3 in *;
  simpl in *.

Lemma process_dataset_only_fetched skip bl name :
  preserves only_fetched_resources (process_dataset skip bl name).
Proof.
  apply process_dataset_preserves_fetched.
  - intros st HI. exact HI.
  - intros st HI. unfold only_fetched_resources in *. fetch_step.
    destruct (package_show (world st) name) as [w [e|p]]; simpl;
      rewrite ?Forall_app; repeat split;
      try solve [apply all_from_fetched_app; assumption];
      repeat constructor.
    exists name. apply elem_of_app. right. apply list_elem_of_here.
  - intros p rs r. apply iteration_only_fetched.
  - intros p st HI. unfold only_fetched_resources in *. fetch_step.
    destruct (upload_package_zipfile_to_s3 (world st) p) as [w [e|]]; simpl;
      rewrite ?Forall_app; repeat split;
      try solve [apply all_from_fetched_app; assumption];
      repeat constructor.
  - intros e st HI. exact HI.
Qed.

(** X13: over a run, [change_to_s3] is called only on resources of packages
    that [package_show] returned earlier in the run, and a resource is
    visited only as a resource of the package being processed. *)
Theorem only_fetched_resources_migrated args config (w : World) :
  let st := fst (command args config (init w)) in
  (forall r res, Migrate r res ∈ trace st -> of_fetched_package r (trace st))
  /\ (forall p r, Visit p r ∈ trace st ->
        fetched p (trace st) /\ exists rs, p_resources p = Some rs /\ r ∈ rs).
Proof.
  intros st.
  assert (H : only_fetched_resources st).
  { apply (command_preserves only_fetched_resources (fun _ => True)).
    - intros w' st' HI. exact HI.
    - intros name. apply process_dataset_only_fetched.
    - intros st' HI. rewrite summary_eq. exact HI.
    - constructor. }
  unfold only_fetched_resources in H. rewrite Forall_forall in H.
  split.
  - intros r res Hin. exact (H _ Hin).
  - intros p r Hin. exact (H _ Hin).
Qed.

Lemma process_dataset_crashes_fetched skip bl name :
  preserves crashes_are_fetched (process_dataset skip bl name).
Proof.
  apply process_dataset_preserves_fetched.
  - intros st HI. exact HI.
  - intros st [HI Hsz]. unfold crashes_are_fetched in *. fetch_step.
    destruct (package_show (world st) name) as [w [e|p]]; simpl;
      rewrite ?count_snoc; simpl; repeat split; try lia;
      try (intros i Hi; destruct (HI i Hi) as (p' & Hp' & Hid');
           exists p'; split; [apply fetched_app|]; assumption).
    exists name. apply elem_of_app. right. apply list_elem_of_here.
  - intros p rs r. apply iteration_crashes_fetched.
  - intros p st [HI Hsz]. unfold crashes_are_fetched in *. fetch_step.
    destruct (upload_package_zipfile_to_s3 (world st) p) as [w [e|]]; simpl;
      rewrite ?count_snoc; simpl; repeat split; try lia;
      try (intros i Hi; destruct (HI i Hi) as (p' & Hp' & Hid');
           exists p'; split; [apply fetched_app|]; assumption).
  - intros e st HI. exact HI.
Qed.

(** X14: at the end of a run every id in [pkg_crashes] is the ['id'] of a
    package that was fetched, and the number of crashed packages reported
    is at most the number of calls of [change_to_s3] that raised. *)
Theorem crashed_packages_were_fetched args config (w : World) :
  let st := fst (command args config (init w)) in
  (forall i, i ∈ pkg_crashes (out st) ->
     exists p, fetched p (trace st) /\ p_id p = Some i)
  /\ size (pkg_crashes (out st)) <= count is_failed_call (trace st).
Proof.
  intros st.
  apply (command_preserves crashes_are_fetched (fun _ => True)).
  - intros w' st' HI. exact HI.
  - intros name. apply process_dataset_crashes_fetched.
  - intros st' HI. rewrite summary_eq. exact HI.
  - split; [|vm_compute; lia].
    intros i Hi. apply elem_of_empty in Hi. contradiction.
Qed.

Lemma process_dataset_extensions_lowered skip bl name :
  preserves extensions_are_lowered_formats (process_dataset skip bl name).
Proof.
  apply process_dataset_preserves_fetched.
  - intros st HI. exact HI.
  - intros st HI. unfold extensions_are_lowered_formats in *. fetch_step.
    destruct (package_show (world st) name) as [w [e|p]]; simpl;
      [|split; [|exists name; apply elem_of_app; right; apply list_elem_of_here]];
      intros e' He'; destruct (HI e' He') as (Hlow & r' & Hr' & He'');
      (split; [exact Hlow|]);
      exists r'; (split; [apply of_fetched_app|]); assumption.
  - intros p rs r. apply iteration_extensions_lowered.
  - intros p st HI. unfold extensions_are_lowered_formats in *. fetch_step.
    destruct (upload_package_zipfile_to_s3 (world st) p) as [w [e|]]; simpl;
      intros e' He'; destruct (HI e' He') as (Hlow & r' & Hr' & He'');
      (split; [exact Hlow|]);
      exists r'; (split; [apply of_fetched_app|]); assumption.
  - intros e st HI. exact HI.
Qed.

(** X15: at the end of a run every extension seen is in lowercase, and is
    the lowered ['format'] of a resource of a package that was fetched. *)
Theorem extensions_seen_are_lowered_formats args config (w : World) :
  let st := fst (command args config (init w)) in
  forall e, e ∈ extensions_seen (out st) ->
    lower e = e
    /\ exists r, of_fetched_package r (trace st) /\ extension_of r = Some e.
Proof.
  intros st.
  apply (command_preserves extensions_are_lowered_formats (fun _ => True)).
  - intros w' st' HI. exact HI.
  - intros name. apply process_dataset_extensions_lowered.
  - intros st' HI. rewrite summary_eq. exact HI.
  - intros e He. apply elem_of_empty in He. contradiction.
Qed.

End Origins.

(** ** The calls made for one dataset *)

Section Order.

Context {World : Type} {services : Services World}.

Local Abbreviation M := (@M World).
Implicit Types (st : @St World).

Lemma iteration_adds_inner_events skip bl p rs r t :
  p_resources p = Some rs -> r ∈ rs ->
  preserves (fun st => exists evs, trace st = t ++ evs
                                   /\ Forall (inner_event_of p) evs)
            (iteration skip bl p r).
Proof.
  intros Hrs Hr st (evs & Ht & Hevs). run_step.
  repeat (case_match; simplify_eq/=); rewrite ?Ht, <- ?app_assoc;
    eexists; (split; [reflexivity|]);
    rewrite ?Forall_app; repeat split; try assumption;
    repeat constructor; exists rs; split; assumption.
Qed.

Lemma process_resources_adds_inner_events skip bl p st :
  exists evs,
    trace (fst (process_resources skip bl p st)) = trace st ++ evs
    /\ Forall (inner_event_of p) evs.
Proof.
  unfold process_resources.
  destruct (gt0 (p_num_resources p));
    [|exists []; rewrite app_nil_r; split; [reflexivity|constructor]].
  unfold bind, iter. destruct (p_resources p) as [rs|] eqn:Hrs; simpl;
    [|exists []; rewrite app_nil_r; split; [reflexivity|constructor]].
  apply (for_each_preserves_in
           (fun st' => exists evs, trace st' = trace st ++ evs
                                   /\ Forall (inner_event_of p) evs)
           (iteration skip bl p) rs).
  - intros r Hr. apply (iteration_adds_inner_events skip bl p rs r _ Hrs Hr).
  - exists []. rewrite app_nil_r. split; [reflexivity|constructor].
Qed.

(** X16: the calls made for one dataset come in this order: the fetch
    first; if it returned a package, calls of [change_to_s3] on resources of
    that package only; then at most one packaging call, of that package,
    which is the last event.  A failed fetch is the only event. *)
Theorem dataset_calls_in_order skip bl name st :
  let t := trace (fst (process_dataset skip bl name st)) in
  match snd (package_show (world st) name) with
  | inl e => t = trace st ++ [Fetch name (inl e)]
  | inr p =>
      exists evs,
        Forall (inner_event_of p) evs
        /\ (t = trace st ++ Fetch name (inr p) :: evs
            \/ exists res,
                 t = trace st ++ Fetch name (inr p) :: evs ++ [Package p res])
  end.
Proof.
  intros t. subst t. rewrite process_dataset_eq.
  unfold call_package_show. simpl.
  destruct (package_show (world st) name) as [w [e|p]]; simpl; [reflexivity|].
  match goal with
  | |- context [process_resources skip bl p ?s] =>
      destruct (process_resources_adds_inner_events skip bl p s)
        as (evs & Ht & Hevs);
      destruct (process_resources skip bl p s) as [st2 [e|[]]]
  end; simpl in *; exists evs; (split; [exact Hevs|]).
  - left. rewrite Ht, <- app_assoc. reflexivity.
  - right. unfold call_upload_package_zipfile_to_s3.
    destruct (upload_package_zipfile_to_s3 (world st2) p) as [w3 [e|]];
      simpl; rewrite Ht, <- !app_assoc; eauto.
Qed.

Lemma well_formed_iteration skip bl p r st :
  is_Some (p_id p) -> well_formed r ->
  snd (iteration skip bl p r st) = inr tt
  /\ visited (fst (iteration skip bl p r st)) = visited st + 1.
Proof.
  intros [i Hi] ([u Hu] & [j Hj] & [f Hf]).
  unfold visited. run_step. rewrite Hi, Hu, Hj, Hf.
  repeat (case_match; simplify_eq/=); rewrite ?count_snoc; simpl;
    split; (reflexivity || lia).
Qed.

Lemma well_formed_loop skip bl p rs st :
  is_Some (p_id p) -> Forall well_formed rs ->
  snd (for_each (iteration skip bl p) rs st) = inr tt
  /\ visited (fst (for_each (iteration skip bl p) rs st))
     = visited st + List.length rs.
Proof.
  intros Hid Hrs. revert st.
  induction Hrs as [|r rs Hr Hrs IH]; intros st; simpl.
  - split; [reflexivity|lia].
  - unfold bind.
    destruct (well_formed_iteration skip bl p r st Hid Hr) as [Hres Hv].
    destruct (iteration skip bl p r st) as [st' [e|[]]]; simpl in *;
      [discriminate|].
    destruct (IH st') as [Hres' Hv']. split; [exact Hres'|]. lia.
Qed.

(** X17: when the package has its ['id'] and every resource of its list has
    the keys ['url_type'] and ['id'] and a string under ['format'], the
    inner loop raises nothing, whatever the services return or raise, and
    every resource of the list is visited (none when the resource count is
    not positive). *)
Theorem well_formed_package_never_aborts skip bl p rs st :
  is_Some (p_id p) ->
  p_resources p = Some rs ->
  Forall well_formed rs ->
  let res := process_resources skip bl p st in
  snd res = inr tt
  /\ visited (fst res)
     = visited st + (if gt0 (p_num_resources p) then List.length rs else 0).
Proof.
  intros Hid Hrs Hwf res. subst res. unfold process_resources.
  destruct (gt0 (p_num_resources p)); [|split; [reflexivity|simpl; lia]].
  unfold bind, iter. rewrite Hrs. simpl.
  apply well_formed_loop; assumption.
Qed.

End Order.

(** ** The failures reported *)

Section Failures.

Context {World : Type} {services : Services World}.

Implicit Types (st : @St World).

Ltac failures :=
  unfold failures_recorded in *; simpl in *;
  rewrite ?count_snoc, ?List.length_app in *; simpl in *.

Lemma iteration_failures_recorded skip bl p r :
  is_Some (p_id p) -> preserves failures_recorded (iteration skip bl p r).
Proof.
  intros [i Hi] st [Hn Hc]. failures. run_step. rewrite Hi.
  repeat (case_match; simplify_eq/=); failures;
    (split; [lia|]);
    try (destruct Hc as [Hc|Hc]; [left; lia|right; exact Hc]).
  all: right; intros Hempty;
    apply (not_elem_of_empty (C := gset value) i);
    rewrite <- Hempty; apply elem_of_union; right;
    apply elem_of_singleton; reflexivity.
Qed.

Lemma process_dataset_failures_recorded skip bl name :
  packages_have_id services ->
  preserves failures_recorded (process_dataset skip bl name).
Proof.
  intros Hid.
  apply (process_dataset_preserves failures_recorded
           (fun p => is_Some (p_id p))).
  - intros st HI. exact HI.
  - intros st [Hn Hc]. unfold call_package_show.
    destruct (package_show (world st) name) as [w [e|p]] eqn:E; failures.
    + split; [lia|]. destruct Hc as [Hc|Hc]; [left; lia|right; exact Hc].
    + split; [|exact (Hid _ _ _ _ E)].
      split; [lia|]. destruct Hc as [Hc|Hc]; [left; lia|right; exact Hc].
  - intros p r Hp. apply iteration_failures_recorded, Hp.
  - intros p st [Hn Hc]. unfold call_upload_package_zipfile_to_s3.
    destruct (upload_package_zipfile_to_s3 (world st) p) as [w [e|]]; failures;
      (split; [lia|]);
      (destruct Hc as [Hc|Hc]; [left; lia|right; exact Hc]).
  - intros e st HI. exact HI.
Qed.

Lemma count_failed_calls (t : list event) :
  count is_failed_call t
  = count is_validation_failure t + count is_key_failure t
    + count is_other_failure t.
Proof.
  induction t as [|ev t IH]; [reflexivity|].
  unfold count in *. simpl.
  destruct ev as [| r [[]|] | |]; simpl; lia.
Qed.

(** X18: when the packages of the catalogue carry their ['id'], the
    failures reported at the end of a run (validation errors, key errors
    and other errors) are as many as the calls of [change_to_s3] that
    raised, and the set of crashed packages is empty exactly when no call
    raised. *)
Theorem reported_failures_are_the_failed_calls args config (w : World) :
  packages_have_id services ->
  let st := fst (command args config (init w)) in
  failed st = count is_failed_call (trace st)
  /\ (pkg_crashes (out st) = ∅ <-> count is_failed_call (trace st) = 0).
Proof.
  intros Hid st.
  assert (failures_recorded st) as [Hn Hc].
  { apply (command_preserves failures_recorded (fun _ => True)).
    - intros w' st' HI. exact HI.
    - intros name. apply process_dataset_failures_recorded, Hid.
    - intros st' HI. rewrite summary_eq. exact HI.
    - split; [reflexivity|left; reflexivity]. }
  assert (counters_match_calls st) as (_ & Hv & Hk).
  { apply (command_preserves counters_match_calls (fun _ => True)).
    - intros w' st' HI. exact HI.
    - intros name. apply process_dataset_counters_match.
    - intros st' HI. rewrite summary_eq. exact HI.
    - repeat split. }
  assert (crashes_are_fetched st) as [_ Hsz].
  { apply (command_preserves crashes_are_fetched (fun _ => True)).
    - intros w' st' HI. exact HI.
    - intros name. apply process_dataset_crashes_fetched.
    - intros st' HI. rewrite summary_eq. exact HI.
    - split; [|vm_compute; lia].
      intros i Hi. apply elem_of_empty in Hi. contradiction. }
  split.
  - unfold failed. rewrite count_failed_calls, Hv, Hk, Hn. reflexivity.
  - split.
    + intros Hempty. destruct Hc as [Hc|Hc]; [exact Hc|contradiction].
    + intros Hzero. rewrite Hzero in Hsz.
      apply leibniz_equiv, size_empty_inv. lia.
Qed.

End Failures.

(** ** The further properties on the example catalogues *)

Lemma listing_failure_is_fatal_witness :
  get_site_user (Services := no_site_user) tt
  = (tt, Some (OtherException "NotAuthorized"))
  /\ command (services := no_site_user) [] None (init tt)
     = (init tt, inl (OtherException "NotAuthorized")).
Proof.
  split; [reflexivity|].
  exact (proj1 (listing_failure_is_fatal (services := no_site_user)
                  [] None tt tt (OtherException "NotAuthorized")) eq_refl).
Defined.

Lemma empty_catalogue_reports_zeros_witness :
  get_site_user (Services := empty_catalogue) tt = (tt, None)
  /\ package_list (Services := empty_catalogue) tt = (tt, inr [])
  /\ log (fst (command (services := empty_catalogue) [] None (init tt)))
     = summary_lines empty_outcome.
Proof.
  split; [reflexivity|].
  split; [reflexivity|].
  rewrite (empty_catalogue_reports_zeros (services := empty_catalogue)
             [] None tt tt tt eq_refl eq_refl).
  reflexivity.
Defined.

Lemma only_first_argument_counts_witness :
  "FORCE_S3" <> "force_s3"
  /\ command (services := on_s3_only) ["FORCE_S3"; "force_s3"] None (init tt)
     = command (services := on_s3_only) [] None (init tt).
Proof.
  assert (H : "FORCE_S3" <> "force_s3") by discriminate.
  split; [exact H|].
  exact (proj2 (only_first_argument_counts (services := on_s3_only)
                  None (init tt)) "FORCE_S3" ["force_s3"] H).
Defined.

Lemma successful_migration_step_witness :
  not_skipped true r_pdf
  /\ r_format r_pdf = Some (VStr "pdf")
  /\ (lower "pdf" ∉ ["zip"])
  /\ resource_update (Services := demo) 0 r_pdf = (1, None)
  /\ (let res := process_resource (services := demo) true ["zip"] d1 r_pdf (init 0) in
      snd res = inr tt
      /\ not_blacklisted (out (fst res)) = 1
      /\ trace (fst res) = [Migrate r_pdf None]).
Proof.
  assert (H1 : not_skipped true r_pdf).
  { right. exists (VStr "upload"). split; [reflexivity|discriminate]. }
  assert (H3 : lower "pdf" ∉ ["zip"]).
  { intros H. apply list_elem_of_singleton in H. discriminate. }
  split; [exact H1|].
  split; [reflexivity|].
  split; [exact H3|].
  split; [reflexivity|].
  cbv zeta.
  rewrite (successful_migration_step (services := demo) true ["zip"] d1 r_pdf
             (init 0) "pdf" 1 H1 eq_refl H3 eq_refl).
  repeat split.
Defined.

Lemma already_on_s3_step_witness :
  r_url_type r_on_s3_bare = Some (VStr "s3")
  /\ r_id r_on_s3_bare = Some (VStr "r7")
  /\ r_format r_on_s3_bare = None
  /\ (let res := process_resource (services := on_s3_only) true ["zip"]
                   d_on_s3 r_on_s3_bare (init tt) in
      snd res = inr tt
      /\ already_on_s3 (out (fst res)) = [VStr "r7"]).
Proof.
  split; [reflexivity|].
  split; [reflexivity|].
  split; [reflexivity|].
  cbv zeta.
  rewrite (already_on_s3_step (services := on_s3_only) ["zip"] d_on_s3
             r_on_s3_bare (init tt) (VStr "r7") eq_refl eq_refl).
  repeat split.
Defined.

Lemma null_format_aborts_loop_witness :
  not_skipped true r_null_format
  /\ r_format r_null_format = Some VNone
  /\ snd (for_each (iteration (services := demo) true [] d1)
            [r_null_format; r_pdf] (init 0))
     = inl (AttributeError "'NoneType' object has no attribute 'lower'").
Proof.
  assert (H1 : not_skipped true r_null_format).
  { right. exists VNone. split; [reflexivity|discriminate]. }
  split; [exact H1|].
  split; [reflexivity|].
  rewrite (proj2 (null_format_aborts_loop (services := demo) true [] d1
                    r_null_format (init 0) [r_pdf] H1 eq_refl)).
  reflexivity.
Defined.

Lemma handler_without_package_id_witness :
  not_skipped true r_bad
  /\ r_format r_bad = Some (VStr "xls")
  /\ (lower "xls" ∉ ["zip"])
  /\ p_id d_no_id = None
  /\ resource_update (Services := demo) 0 r_bad = (0, Some (ValidationError "url"))
  /\ (let res := process_resource (services := demo) true ["zip"] d_no_id
                   r_bad (init 0) in
      snd res = inl (KeyError "id")
      /\ validation_errors (out (fst res)) = 1
      /\ pkg_crashes (out (fst res)) = ∅).
Proof.
  assert (H1 : not_skipped true r_bad).
  { right. exists VNone. split; [reflexivity|discriminate]. }
  assert (H3 : lower "xls" ∉ ["zip"]).
  { intros H. apply list_elem_of_singleton in H. discriminate. }
  split; [exact H1|].
  split; [reflexivity|].
  split; [exact H3|].
  split; [reflexivity|].
  split; [reflexivity|].
  cbv zeta.
  rewrite (handler_without_package_id (services := demo) true ["zip"] d_no_id
             r_bad (init 0) "xls" 0 (ValidationError "url")
             H1 eq_refl H3 eq_refl eq_refl).
  repeat split.
Defined.

Lemma packaging_failure_recorded_witness :
  package_show (Services := no_archives) 0 "d1" = (0, inr d1)
  /\ (let res := process_dataset (services := no_archives) true ["zip"] "d1"
                   (init 0) in
      pkg_crashes_w_error (out (fst res))
      = [("d1", OtherException "S3ResponseError")]
      /\ not_blacklisted (out (fst res)) = 2
      /\ validation_errors (out (fst res)) = 1
      /\ already_on_s3 (out (fst res)) = [VStr "r1"]).
Proof.
  split; [reflexivity|].
  cbv zeta.
  rewrite (packaging_failure_recorded (services := no_archives) true ["zip"]
             "d1" (init 0) 0 d1 1 (OtherException "S3ResponseError")
             eq_refl eq_refl eq_refl).
  vm_compute. repeat split.
Defined.

Lemma missing_resources_abort_dataset_witness :
  package_show (Services := no_resources_only) tt "d6" = (tt, inr d_no_resources)
  /\ p_num_resources d_no_resources = Some 1%Z
  /\ p_resources d_no_resources = None
  /\ (let res := process_dataset (services := no_resources_only) true [] "d6"
                   (init tt) in
      pkg_crashes_w_error (out (fst res))
      = [("d6", TypeError "'NoneType' object is not iterable")]
      /\ trace (fst res) = [Fetch "d6" (inr d_no_resources)]).
Proof.
  split; [reflexivity|].
  split; [reflexivity|].
  split; [reflexivity|].
  cbv zeta.
  rewrite (missing_resources_abort_dataset (services := no_resources_only)
             true [] "d6" (init tt) tt d_no_resources 1%Z
             eq_refl eq_refl eq_refl eq_refl).
  repeat split.
Defined.

Lemma extensions_seen_are_lowered_formats_witness :
  let st := fst (command (services := demo) [] (Some "ZIP exe") (init 0)) in
  "zip" ∈ extensions_seen (out st)
  /\ exists r, of_fetched_package r (trace st) /\ extension_of r = Some "zip".
Proof.
  cbv zeta.
  assert (H : "zip" ∈ extensions_seen
                (out (fst (command (services := demo) [] (Some "ZIP exe")
                             (init 0))))).
  { vm_compute. reflexivity. }
  split; [exact H|].
  exact (proj2 (extensions_seen_are_lowered_formats (services := demo)
                  [] (Some "ZIP exe") 0 "zip" H)).
Defined.

Lemma well_formed_package_never_aborts_witness :
  is_Some (p_id d1)
  /\ p_resources d1 = Some [r_csv_on_s3; r_zip; r_bad; r_pdf]
  /\ Forall well_formed [r_csv_on_s3; r_zip; r_bad; r_pdf]
  /\ (let res := process_resources (services := demo) true ["zip"] d1 (init 0) in
      snd res = inr tt /\ visited (fst res) = 4).
Proof.
  assert (H1 : is_Some (p_id d1)) by (eexists; reflexivity).
  assert (H3 : Forall well_formed [r_csv_on_s3; r_zip; r_bad; r_pdf]).
  { repeat constructor; eexists; reflexivity. }
  split; [exact H1|].
  split; [reflexivity|].
  split; [exact H3|].
  exact (well_formed_package_never_aborts (services := demo) true ["zip"] d1
           [r_csv_on_s3; r_zip; r_bad; r_pdf] (init 0) H1 eq_refl H3).
Defined.

Lemma reported_failures_are_the_failed_calls_witness :
  packages_have_id demo
  /\ (let st := fst (command (services := demo) [] (Some "ZIP exe") (init 0)) in
      failed st = count is_failed_call (trace st)
      /\ failed st = 1).
Proof.
  assert (Hid : packages_have_id demo) by has_id.
  split; [exact Hid|].
  split; [|vm_compute; reflexivity].
  exact (proj1 (reported_failures_are_the_failed_calls (services := demo)
                  [] (Some "ZIP exe") 0 Hid)).
Defined.

(** ** Every error of a run, logged and recorded *)





Section Errors.

Context {World : Type} {services : Services World}.

Implicit Types (st : @St World).

















End Errors.


